(** * Lorenz (1963) system: RK4 time marching and relative maxima

    A shallow embedding of the notebook [systemLorenz1963.ipynb].

    The notebook computes with Python floats (IEEE 754 binary64).  The
    functions are written once, over the arithmetic interface [Num] that
    lists the operations the code uses, and are read at two instances:
    - [float], Rocq's primitive binary64 numbers, which execute exactly the
      operations Python executes;
    - [R], the real numbers of the specification's data model, for the
      algebraic identities.
    Results that only depend on the shape of the computation are proved for
    every instance at once.

    The cells of the notebook act on the global variables of the kernel
    ([Store]) and may raise ([exc]); a run executes them in their order. *)

From Stdlib Require Import ZArith List Sorted Bool Lia Reals Lra Floats.
Import ListNotations.

Set Warnings "-inexact-float".

(** ** Arithmetic interface *)

(** The operations of Python numbers used by the notebook: conversion of an
    [int] literal, [+], [-], [*], [/] and the comparison [>]. *)
Class Num (T : Type) : Type := {
  of_int : Z -> T;
  add : T -> T -> T;
  sub : T -> T -> T;
  mul : T -> T -> T;
  div : T -> T -> T;
  gtb : T -> T -> bool
}.

Declare Scope num_scope.
Delimit Scope num_scope with num.
Infix "+" := add : num_scope.
Infix "-" := sub : num_scope.
Infix "*" := mul : num_scope.
Infix "/" := div : num_scope.
Infix ">?" := gtb (at level 70, no associativity) : num_scope.
Notation "# z" := (of_int z%Z) (at level 1, format "# z") : num_scope.

(** Conversion of a Python [int] to a binary64 number: the nearest one, ties
    to even. *)
Definition float_of_int (z : Z) : float :=
  SF2Prim (binary_normalize prec emax z 0 false).

#[export] Instance float_Num : Num float := {
  of_int := float_of_int;
  add := PrimFloat.add;
  sub := PrimFloat.sub;
  mul := PrimFloat.mul;
  div := PrimFloat.div;
  gtb := fun a b => PrimFloat.ltb b a
}.

#[export] Instance R_Num : Num R := {
  of_int := IZR;
  add := Rplus;
  sub := Rminus;
  mul := Rmult;
  div := Rdiv;
  gtb := fun a b => if Rgt_dec a b then true else false
}.

(** ** The two functions of the notebook *)

Section Functions.
Context {T : Type} `{Num T}.
Local Open Scope num_scope.

(** [params] is the list [[sigma, smallr, smallb]]; the function reads its
    entries 0, 1 and 2. *)
Definition Params : Type := (T * T * T)%type.

Definition systemLorenz1963 (xx yy zz : T) (params : Params) : T * T * T :=
  let '(p0, p1, p2) := params in
  let sigmavalue := p0 in
  let rvalue := p1 in
  let bvalue := p2 in
  let dxdt := #(-1) * sigmavalue * xx + sigmavalue * yy in
  let dydt := (rvalue - zz) * xx - yy in
  let dzdt := xx * yy - bvalue * zz in
  (dxdt, dydt, dzdt).

Definition rk4_xyz {P : Type} (xx yy zz step : T)
    (func : T -> T -> T -> P -> T * T * T) (params : P) : T * T * T :=
  let '(k1x, k1y, k1z) := func xx yy zz params in
  let '(k2x, k2y, k2z) :=
    func (xx + step * k1x / #2) (yy + step * k1y / #2) (zz + step * k1z / #2) params in
  let '(k3x, k3y, k3z) :=
    func (xx + step * k2x / #2) (yy + step * k2y / #2) (zz + step * k2z / #2) params in
  let '(k4x, k4y, k4z) :=
    func (xx + step * k3x) (yy + step * k3y) (zz + step * k3z) params in
  let stepx := #1 / #6 * (k1x + #2 * k2x + #2 * k3x + k4x) * step in
  let stepy := #1 / #6 * (k1y + #2 * k2y + #2 * k3y + k4y) * step in
  let stepz := #1 / #6 * (k1z + #2 * k2z + #2 * k3z + k4z) * step in
  (stepx, stepy, stepz).

(** The three weighted sums [1/6*(k1+2*k2+2*k3+k4)] that [rk4_xyz]
    multiplies by [step]. *)
Definition rk4_weights {P : Type} (xx yy zz step : T)
    (func : T -> T -> T -> P -> T * T * T) (params : P) : T * T * T :=
  let '(k1x, k1y, k1z) := func xx yy zz params in
  let '(k2x, k2y, k2z) :=
    func (xx + step * k1x / #2) (yy + step * k1y / #2) (zz + step * k1z / #2) params in
  let '(k3x, k3y, k3z) :=
    func (xx + step * k2x / #2) (yy + step * k2y / #2) (zz + step * k2z / #2) params in
  let '(k4x, k4y, k4z) :=
    func (xx + step * k3x) (yy + step * k3y) (zz + step * k3z) params in
  (#1 / #6 * (k1x + #2 * k2x + #2 * k3x + k4x),
   #1 / #6 * (k1y + #2 * k2y + #2 * k3y + k4y),
   #1 / #6 * (k1z + #2 * k2z + #2 * k3z + k4z)).

End Functions.

(** ** Exceptions *)

(** The exceptions that can end a cell: an index outside an array, a negative
    array size, and whatever the library routine [np.arange] raises. *)
Inductive PyError : Type :=
| IndexError
| ValueError
| ArangeError.

Inductive exc (A : Type) : Type :=
| Ok (a : A)
| Raise (e : PyError).
Arguments Ok {A} a.
Arguments Raise {A} e.

Definition bind {A B : Type} (c : exc A) (k : A -> exc B) : exc B :=
  match c with
  | Ok a => k a
  | Raise e => Raise e
  end.

Notation "x <- c ;; k" := (bind c (fun x => k))
  (at level 61, c at next level, right associativity).

(** ** Arrays *)

(** [range(n)] and [range(a, b)]; the notebook only uses them with a start
    that is not negative, so the indices are natural numbers. *)
Definition range (n : Z) : list nat := seq 0 (Z.to_nat n).
Definition range_from (a : nat) (b : Z) : list nat := seq a (Z.to_nat (b - Z.of_nat a)).

Section Arrays.
Context {T : Type} `{Num T}.
Local Open Scope num_scope.

(** [np.zeros(n)]: [n] entries 0.0; a negative size is a [ValueError]. *)
Definition np_zeros (n : Z) : exc (list T) :=
  if (n <? 0)%Z then Raise ValueError else Ok (repeat #0 (Z.to_nat n)).

(** [a[i]] for an index [i >= 0]: outside the array it is an [IndexError]. *)
Definition getitem (a : list T) (i : nat) : exc T :=
  match nth_error a i with
  | Some v => Ok v
  | None => Raise IndexError
  end.

Fixpoint update (a : list T) (i : nat) (v : T) : list T :=
  match a, i with
  | [], _ => []
  | _ :: a', O => v :: a'
  | w :: a', S i' => w :: update a' i' v
  end.

(** [a[i] = v] for an index [i >= 0]. *)
Definition setitem (a : list T) (i : nat) (v : T) : exc (list T) :=
  if (i <? length a)%nat then Ok (update a i v) else Raise IndexError.

End Arrays.

(** ** The notebook *)

(** The literals of the configuration cells. *)
Record Config (T : Type) : Type := {
  cfg_deltat : T;
  cfg_ntot : Z;
  cfg_sigma : T;
  cfg_smallr : T;
  cfg_smallb : T;
  cfg_initx : T;
  cfg_inity : T;
  cfg_initz : T
}.
Arguments cfg_deltat {T} _.
Arguments cfg_ntot {T} _.
Arguments cfg_sigma {T} _.
Arguments cfg_smallr {T} _.
Arguments cfg_smallb {T} _.
Arguments cfg_initx {T} _.
Arguments cfg_inity {T} _.
Arguments cfg_initz {T} _.

(** The global variables of the kernel.  A cell starts from the values the
    cells before it (or an earlier run) left behind. *)
Record Store (T : Type) : Type := {
  deltat : T;
  ntot : Z;
  timing : list T;
  sigma : T;
  smallr : T;
  smallb : T;
  initx : T;
  inity : T;
  initz : T;
  xvalues : list T;
  yvalues : list T;
  zvalues : list T;
  ii : nat;
  stepx : T;
  stepy : T;
  stepz : T;
  relMaxZ : list T
}.
Arguments deltat {T} _.
Arguments ntot {T} _.
Arguments timing {T} _.
Arguments sigma {T} _.
Arguments smallr {T} _.
Arguments smallb {T} _.
Arguments initx {T} _.
Arguments inity {T} _.
Arguments initz {T} _.
Arguments xvalues {T} _.
Arguments yvalues {T} _.
Arguments zvalues {T} _.
Arguments ii {T} _.
Arguments stepx {T} _.
Arguments stepy {T} _.
Arguments stepz {T} _.
Arguments relMaxZ {T} _.

Section Assignments.
Context {T : Type}.

(** [deltat = dt; ntot = n; timing = t] *)
Definition assign_time_stepping (s : Store T) (dt : T) (n : Z) (t : list T) : Store T :=
  {| deltat := dt; ntot := n; timing := t;
     sigma := sigma s; smallr := smallr s; smallb := smallb s;
     initx := initx s; inity := inity s; initz := initz s;
     xvalues := xvalues s; yvalues := yvalues s; zvalues := zvalues s;
     ii := ii s; stepx := stepx s; stepy := stepy s; stepz := stepz s;
     relMaxZ := relMaxZ s |}.

(** [sigma = sg; smallr = r; smallb = b] *)
Definition assign_parameters (s : Store T) (sg r b : T) : Store T :=
  {| deltat := deltat s; ntot := ntot s; timing := timing s;
     sigma := sg; smallr := r; smallb := b;
     initx := initx s; inity := inity s; initz := initz s;
     xvalues := xvalues s; yvalues := yvalues s; zvalues := zvalues s;
     ii := ii s; stepx := stepx s; stepy := stepy s; stepz := stepz s;
     relMaxZ := relMaxZ s |}.

(** [initx = ix; inity = iy; initz = iz] *)
Definition assign_init (s : Store T) (ix iy iz : T) : Store T :=
  {| deltat := deltat s; ntot := ntot s; timing := timing s;
     sigma := sigma s; smallr := smallr s; smallb := smallb s;
     initx := ix; inity := iy; initz := iz;
     xvalues := xvalues s; yvalues := yvalues s; zvalues := zvalues s;
     ii := ii s; stepx := stepx s; stepy := stepy s; stepz := stepz s;
     relMaxZ := relMaxZ s |}.

(** [xvalues = a] *)
Definition assign_xvalues (s : Store T) (a : list T) : Store T :=
  {| deltat := deltat s; ntot := ntot s; timing := timing s;
     sigma := sigma s; smallr := smallr s; smallb := smallb s;
     initx := initx s; inity := inity s; initz := initz s;
     xvalues := a; yvalues := yvalues s; zvalues := zvalues s;
     ii := ii s; stepx := stepx s; stepy := stepy s; stepz := stepz s;
     relMaxZ := relMaxZ s |}.

(** [yvalues = a] *)
Definition assign_yvalues (s : Store T) (a : list T) : Store T :=
  {| deltat := deltat s; ntot := ntot s; timing := timing s;
     sigma := sigma s; smallr := smallr s; smallb := smallb s;
     initx := initx s; inity := inity s; initz := initz s;
     xvalues := xvalues s; yvalues := a; zvalues := zvalues s;
     ii := ii s; stepx := stepx s; stepy := stepy s; stepz := stepz s;
     relMaxZ := relMaxZ s |}.

(** [zvalues = a] *)
Definition assign_zvalues (s : Store T) (a : list T) : Store T :=
  {| deltat := deltat s; ntot := ntot s; timing := timing s;
     sigma := sigma s; smallr := smallr s; smallb := smallb s;
     initx := initx s; inity := inity s; initz := initz s;
     xvalues := xvalues s; yvalues := yvalues s; zvalues := a;
     ii := ii s; stepx := stepx s; stepy := stepy s; stepz := stepz s;
     relMaxZ := relMaxZ s |}.

(** The loop variable: [ii = i] *)
Definition assign_ii (s : Store T) (i : nat) : Store T :=
  {| deltat := deltat s; ntot := ntot s; timing := timing s;
     sigma := sigma s; smallr := smallr s; smallb := smallb s;
     initx := initx s; inity := inity s; initz := initz s;
     xvalues := xvalues s; yvalues := yvalues s; zvalues := zvalues s;
     ii := i; stepx := stepx s; stepy := stepy s; stepz := stepz s;
     relMaxZ := relMaxZ s |}.

(** [stepx, stepy, stepz = sx, sy, sz] *)
Definition assign_step (s : Store T) (sx sy sz : T) : Store T :=
  {| deltat := deltat s; ntot := ntot s; timing := timing s;
     sigma := sigma s; smallr := smallr s; smallb := smallb s;
     initx := initx s; inity := inity s; initz := initz s;
     xvalues := xvalues s; yvalues := yvalues s; zvalues := zvalues s;
     ii := ii s; stepx := sx; stepy := sy; stepz := sz;
     relMaxZ := relMaxZ s |}.

(** [relMaxZ = l] *)
Definition assign_relMaxZ (s : Store T) (l : list T) : Store T :=
  {| deltat := deltat s; ntot := ntot s; timing := timing s;
     sigma := sigma s; smallr := smallr s; smallb := smallb s;
     initx := initx s; inity := inity s; initz := initz s;
     xvalues := xvalues s; yvalues := yvalues s; zvalues := zvalues s;
     ii := ii s; stepx := stepx s; stepy := stepy s; stepz := stepz s;
     relMaxZ := l |}.

End Assignments.

Section Notebook.
Context {T : Type} `{Num T}.
Local Open Scope num_scope.

(** [np.arange(start, stop, step)] is library code outside the notebook:
    it is a parameter of the model.  Its result is bound to [timing],
    which no later cell reads; only whether it raises matters. *)
Variable np_arange : T -> T -> T -> exc (list T).

(** Cell "Time stepping". *)
Definition cell_time_stepping (dt : T) (n : Z) (s : Store T) : exc (Store T) :=
  t <- np_arange #0 (#n * dt) dt ;;
  Ok (assign_time_stepping s dt n t).

(** Cell "Parameters". *)
Definition cell_parameters (sg r b : T) (s : Store T) : exc (Store T) :=
  Ok (assign_parameters s sg r b).

(** Cell "Initial conditions". *)
Definition cell_initial_conditions (ix iy iz : T) (s : Store T) : exc (Store T) :=
  let s := assign_init s ix iy iz in
  a <- np_zeros (ntot s) ;;
  let s := assign_xvalues s a in
  a <- np_zeros (ntot s) ;;
  let s := assign_yvalues s a in
  a <- np_zeros (ntot s) ;;
  let s := assign_zvalues s a in
  a <- setitem (xvalues s) 0 (initx s) ;;
  let s := assign_xvalues s a in
  a <- setitem (yvalues s) 0 (inity s) ;;
  let s := assign_yvalues s a in
  a <- setitem (zvalues s) 0 (initz s) ;;
  Ok (assign_zvalues s a).

(** The body of the loop, for one value of [ii]. *)
Definition loop_body (i : nat) (s : Store T) : exc (Store T) :=
  let s := assign_ii s i in
  x <- getitem (xvalues s) (ii s) ;;
  y <- getitem (yvalues s) (ii s) ;;
  z <- getitem (zvalues s) (ii s) ;;
  let '(sx, sy, sz) :=
    rk4_xyz x y z (deltat s) systemLorenz1963 (sigma s, smallr s, smallb s) in
  let s := assign_step s sx sy sz in
  x <- getitem (xvalues s) (ii s) ;;
  a <- setitem (xvalues s) (ii s + 1) (x + stepx s) ;;
  let s := assign_xvalues s a in
  y <- getitem (yvalues s) (ii s) ;;
  a <- setitem (yvalues s) (ii s + 1) (y + stepy s) ;;
  let s := assign_yvalues s a in
  z <- getitem (zvalues s) (ii s) ;;
  a <- setitem (zvalues s) (ii s + 1) (z + stepz s) ;;
  Ok (assign_zvalues s a).

(** [for ii in l: body] *)
Fixpoint for_each (l : list nat) (body : nat -> Store T -> exc (Store T))
    (s : Store T) : exc (Store T) :=
  match l with
  | [] => Ok s
  | i :: l' => s' <- body i s ;; for_each l' body s'
  end.

(** Cell "Loop". *)
Definition cell_loop (s : Store T) : exc (Store T) :=
  for_each (range (ntot s - 1)) loop_body s.

(** The condition of the comprehension,
    [zvalues[ii] > zvalues[ii-1] and zvalues[ii] > zvalues[ii+1]];
    [and] evaluates its right operand only when the left one holds. *)
Definition is_rel_max (zs : list T) (i : nat) : exc bool :=
  a <- getitem zs i ;;
  b <- getitem zs (i - 1) ;;
  if a >? b then
    a <- getitem zs i ;;
    c <- getitem zs (i + 1) ;;
    Ok (a >? c)
  else Ok false.

(** [[zs[ii] for ii in l if is_rel_max(zs, ii)]] *)
Fixpoint comprehension (zs : list T) (l : list nat) : exc (list T) :=
  match l with
  | [] => Ok []
  | i :: l' =>
      c <- is_rel_max zs i ;;
      if c then
        v <- getitem zs i ;;
        rest <- comprehension zs l' ;;
        Ok (v :: rest)
      else comprehension zs l'
  end.

(** The right-hand side of the cell "Get relative maxima in Z", as a
    function of the series and of its length. *)
Definition rel_maxima (zs : list T) (n : Z) : exc (list T) :=
  comprehension zs (range_from 1 (n - 1)).

(** Cell "Get relative maxima in Z". *)
Definition cell_rel_maxima (s : Store T) : exc (Store T) :=
  l <- rel_maxima (zvalues s) (ntot s) ;;
  Ok (assign_relMaxZ s l).

(** The configuration cells, up to and including the initial conditions. *)
Definition configure (c : Config T) (s : Store T) : exc (Store T) :=
  s <- cell_time_stepping (cfg_deltat c) (cfg_ntot c) s ;;
  s <- cell_parameters (cfg_sigma c) (cfg_smallr c) (cfg_smallb c) s ;;
  cell_initial_conditions (cfg_initx c) (cfg_inity c) (cfg_initz c) s.

(** The simulation: the configuration cells, then the loop. *)
Definition simulate (c : Config T) (s : Store T) : exc (Store T) :=
  s <- configure c s ;;
  cell_loop s.

(** The simulation stopped after the first [k] iterations of the loop. *)
Definition simulate_upto (k : nat) (c : Config T) (s : Store T) : exc (Store T) :=
  s <- configure c s ;;
  for_each (firstn k (range (ntot s - 1))) loop_body s.

(** The whole notebook, plots apart: the cells in their order. *)
Definition run_all (c : Config T) (s : Store T) : exc (Store T) :=
  s <- simulate c s ;;
  cell_rel_maxima s.

End Notebook.

(** ** The trajectory as an orbit *)

Section Orbit.
Context {T : Type} `{Num T}.
Local Open Scope num_scope.

Definition State : Type := (T * T * T)%type.

Definition px (p : State) : T := fst (fst p).
Definition py (p : State) : T := snd (fst p).
Definition pz (p : State) : T := snd p.

(** One iteration of the loop on a state: the state plus its increment. *)
Definition advance (h : T) (p : Params) (st : State) : State :=
  let '(x, y, z) := st in
  let '(sx, sy, sz) := rk4_xyz x y z h systemLorenz1963 p in
  (x + sx, y + sy, z + sz).

(** The first [n] states met from [st]. *)
Fixpoint orbit (n : nat) (h : T) (p : Params) (st : State) : list State :=
  match n with
  | O => []
  | S n' => st :: orbit n' h p (advance h p st)
  end.

(** The three arrays of a store, entry by entry. *)
Definition entry (s : Store T) (i : nat) : option State :=
  match nth_error (xvalues s) i, nth_error (yvalues s) i, nth_error (zvalues s) i with
  | Some x, Some y, Some z => Some (x, y, z)
  | _, _, _ => None
  end.

Definition store_params (s : Store T) : Params := (sigma s, smallr s, smallb s).

(** The variables the loop reads and never assigns. *)
Definition same_config (s s' : Store T) : Prop :=
  deltat s' = deltat s /\ ntot s' = ntot s /\ store_params s' = store_params s.

Definition init_state (c : Config T) : State :=
  (cfg_initx c, cfg_inity c, cfg_initz c).

Definition cfg_params (c : Config T) : Params :=
  (cfg_sigma c, cfg_smallr c, cfg_smallb c).

(** The call [np.arange(0, ntot*deltat, deltat)] of the first cell
    returns. *)
Definition arange_returns (np_arange : T -> T -> T -> exc (list T)) (c : Config T) : Prop :=
  exists t, np_arange #0 (#(cfg_ntot c) * cfg_deltat c) (cfg_deltat c) = Ok t.

(** [zs[i]] is strictly greater than both its neighbours. *)
Definition strict_max (zs : list T) (i : nat) : bool :=
  (nth i zs #0 >? nth (i - 1) zs #0) && (nth i zs #0 >? nth (i + 1) zs #0).

(** The interior indices of a series of length [n]: 1, ..., [n-2]. *)
Definition interior (n : nat) : list nat := seq 1 (n - 2).

End Orbit.

(** ** What a run produces *)

Section Results.
Context {T : Type}.

(** The output surface: the three arrays and the list of maxima, or the
    exception that ended the run. *)
Definition result (r : exc (Store T)) : exc (list T * list T * list T * list T) :=
  match r with
  | Ok s => Ok (xvalues s, yvalues s, zvalues s, relMaxZ s)
  | Raise e => Raise e
  end.

(** Two stores agree on the variables the loop and the last cell read. *)
Definition agree (s1 s2 : Store T) : Prop :=
  deltat s1 = deltat s2 /\ ntot s1 = ntot s2 /\
  sigma s1 = sigma s2 /\ smallr s1 = smallr s2 /\ smallb s1 = smallb s2 /\
  xvalues s1 = xvalues s2 /\ yvalues s1 = yvalues s2 /\ zvalues s1 = zvalues s2.

(** Two outcomes are alike: the same exception, or stores related by [R]. *)
Definition alike (R : Store T -> Store T -> Prop) (r1 r2 : exc (Store T)) : Prop :=
  match r1, r2 with
  | Ok s1, Ok s2 => R s1 s2
  | Raise e1, Raise e2 => e1 = e2
  | _, _ => False
  end.

End Results.

(** ** Configurations for concrete runs *)

(** A stand-in for [np.arange] on arguments where numpy returns an array:
    the array is bound to [timing] and never read, so it is left empty. *)
Definition arange_returning {T : Type} (start stop step : T) : exc (list T) := Ok [].

(** A kernel in which earlier cells left zeros and empty arrays. *)
Definition blank_store {T : Type} `{Num T} : Store T :=
  {| deltat := of_int 0; ntot := 0%Z; timing := [];
     sigma := of_int 0; smallr := of_int 0; smallb := of_int 0;
     initx := of_int 0; inity := of_int 0; initz := of_int 0;
     xvalues := []; yvalues := []; zvalues := [];
     ii := 0%nat; stepx := of_int 0; stepy := of_int 0; stepz := of_int 0;
     relMaxZ := [] |}.

(** The literals of the notebook. *)
Definition notebook_config : Config float :=
  {| cfg_deltat := 0.01%float; cfg_ntot := 6113%Z;
     cfg_sigma := 10.0%float; cfg_smallr := 28.0%float; cfg_smallb := (8 / 3)%float;
     cfg_initx := 0.0%float; cfg_inity := 0.1%float; cfg_initz := 0.0%float |}.

(** The same configuration with another initial [Y] and another length. *)
Definition with_inity_ntot (c : Config float) (y : float) (n : Z) : Config float :=
  {| cfg_deltat := cfg_deltat c; cfg_ntot := n;
     cfg_sigma := cfg_sigma c; cfg_smallr := cfg_smallr c; cfg_smallb := cfg_smallb c;
     cfg_initx := cfg_initx c; cfg_inity := y; cfg_initz := cfg_initz c |}.

(** The same configuration with another step size and another length. *)
Definition with_deltat_ntot (c : Config float) (h : float) (n : Z) : Config float :=
  {| cfg_deltat := h; cfg_ntot := n;
     cfg_sigma := cfg_sigma c; cfg_smallr := cfg_smallr c; cfg_smallb := cfg_smallb c;
     cfg_initx := cfg_initx c; cfg_inity := cfg_inity c; cfg_initz := cfg_initz c |}.

(** ** Comparing two runs in binary64 *)

(** The states a store holds, entry by entry. *)
Definition trajectory {T : Type} (s : Store T) : list (T * T * T) :=
  map (fun e => (fst e, fst (snd e), snd (snd e)))
      (combine (xvalues s) (combine (yvalues s) (zvalues s))).

Definition fmax (a b : float) : float := if (a <? b)%float then b else a.

(** The largest absolute difference between the components of two states. *)
Definition separation (p q : float * float * float) : float :=
  fmax (abs (px p - px q)) (fmax (abs (py p - py q)) (abs (pz p - pz q))).

Definition separations (t1 t2 : list (float * float * float)) : list float :=
  map (fun pq => separation (fst pq) (snd pq)) (combine t1 t2).

(** Every separation in [l] is at most [bound]. *)
Definition all_within (bound : float) (l : list float) : bool :=
  forallb (fun d => (d <=? bound)%float) l.

(** Some separation in [l] exceeds [bound]. *)
Definition some_beyond (bound : float) (l : list float) : bool :=
  existsb (fun d => (bound <? d)%float) l.

(** The orbit of the notebook's configuration from the initial [Y = y]. *)
Definition notebook_orbit (y : float) : list (float * float * float) :=
  orbit (Z.to_nat (cfg_ntot notebook_config)) (cfg_deltat notebook_config)
        (cfg_params notebook_config)
        (cfg_initx notebook_config, y, cfg_initz notebook_config).

(** The notebook's run against the run whose initial [Y] is [y]: the two
    stay within 0.0035 of each other up to step 500, no separation exceeds
    1.0 before step 3000 nor before step 3067, and the one at step 3067
    does. *)
Definition late_divergence (y : float) : bool :=
  let d := separations (notebook_orbit (cfg_inity notebook_config)) (notebook_orbit y) in
  all_within 0.0035 (firstn 501 d)
  && negb (some_beyond 1 (firstn 3000 d))
  && all_within 1 (firstn 3067 d)
  && (1 <? nth 3067 d 0)%float.

(** A component [s = t * 0.0] of an increment: zero when the weighted sum
    [t] is finite, not a number when [t] is infinite or not a number. *)
Definition zero_or_nan (t s : float) : bool :=
  if is_finite t then is_zero s else is_nan s.

(** ** The mirror symmetry *)

(** The mirror in binary64, and the comparison [==] of two states. *)
Definition mirror_binary64 (st : float * float * float) : float * float * float :=
  let '(x, y, z) := st in (- x, - y, z)%float.

Definition same_state (p q : float * float * float) : bool :=
  (px p =? px q)%float && (py p =? py q)%float && (pz p =? pz q)%float.

(** The mirror in real arithmetic, on a state and on a configuration. *)
Definition mirror (st : R * R * R) : R * R * R :=
  let '(x, y, z) := st in (- x, - y, z)%R.

Definition mirror_config (c : Config R) : Config R :=
  {| cfg_deltat := cfg_deltat c; cfg_ntot := cfg_ntot c;
     cfg_sigma := cfg_sigma c; cfg_smallr := cfg_smallr c; cfg_smallb := cfg_smallb c;
     cfg_initx := (- cfg_initx c)%R; cfg_inity := (- cfg_inity c)%R;
     cfg_initz := cfg_initz c |}.

(** The literals of the notebook read as real numbers, with another length. *)
Definition real_config (n : Z) : Config R :=
  {| cfg_deltat := 0.01%R; cfg_ntot := n;
     cfg_sigma := 10%R; cfg_smallr := 28%R; cfg_smallb := (8 / 3)%R;
     cfg_initx := 0%R; cfg_inity := 0.1%R; cfg_initz := 0%R |}.

(** ** The plotting cell *)

(** Python's slice [l[start:stop]]; [None] is an omitted bound.  A negative
    bound counts from the end of the list, and a bound outside the list is
    moved to its nearest end. *)
Definition slice_bound (len i : Z) : Z :=
  let i := if (i <? 0)%Z then (i + len)%Z else i in
  Z.max 0 (Z.min len i).

Definition slice {A : Type} (l : list A) (start stop : option Z) : list A :=
  let len := Z.of_nat (length l) in
  let lo := match start with Some i => slice_bound len i | None => 0%Z end in
  let hi := match stop with Some i => slice_bound len i | None => len end in
  firstn (Z.to_nat (hi - lo)) (skipn (Z.to_nat lo) l).

(** The data [x, y] of the three calls of [ax.scatter]:
    [(yvalues, zvalues)], [(yvalues, xvalues)] and
    [(relMaxZ[0:-1], relMaxZ[1:])]. *)
Definition scatter_data {T : Type} (s : Store T) : list (list T * list T) :=
  [ (yvalues s, zvalues s);
    (yvalues s, xvalues s);
    (slice (relMaxZ s) (Some 0%Z) (Some (-1)%Z), slice (relMaxZ s) (Some 1%Z) None) ].

(** ** Other configurations and fields *)

(** A configuration with another length, and with another initial state. *)
Definition set_ntot {T : Type} (c : Config T) (n : Z) : Config T :=
  {| cfg_deltat := cfg_deltat c; cfg_ntot := n;
     cfg_sigma := cfg_sigma c; cfg_smallr := cfg_smallr c; cfg_smallb := cfg_smallb c;
     cfg_initx := cfg_initx c; cfg_inity := cfg_inity c; cfg_initz := cfg_initz c |}.

Definition set_init {T : Type} (c : Config T) (st : T * T * T) : Config T :=
  {| cfg_deltat := cfg_deltat c; cfg_ntot := cfg_ntot c;
     cfg_sigma := cfg_sigma c; cfg_smallr := cfg_smallr c; cfg_smallb := cfg_smallb c;
     cfg_initx := fst (fst st); cfg_inity := snd (fst st); cfg_initz := snd st |}.

(** Fields [func(xx, yy, zz, params)] to call [rk4_xyz] with: the field
    that is [params] everywhere, and the linear field of rate [params]. *)
Definition constant_field {T : Type} (xx yy zz : T) (params : T * T * T) : T * T * T :=
  params.

Definition linear_field (xx yy zz : R) (params : R) : R * R * R :=
  (params * xx, params * yy, params * zz)%R.

(** The factor by which one classic RK4 step of size [h] multiplies the
    solution of [u' = a u]. *)
Definition rk4_growth (a h : R) : R :=
  (1 + h * a + (h * a) ^ 2 / 2 + (h * a) ^ 3 / 6 + (h * a) ^ 4 / 24)%R.

(** [>] never holds in both directions. *)
Definition gtb_asymmetric {T : Type} `{Num T} : Prop :=
  forall a b : T, gtb a b = true -> gtb b a = false.

(** A kernel whose three arrays hold [1.0, 2.0, 3.0] from an earlier run,
    with the notebook's step and parameters and [ntot = n]. *)
Definition stale_store (n : Z) : Store float :=
  assign_zvalues
    (assign_yvalues
       (assign_xvalues
          (assign_parameters
             (assign_time_stepping blank_store 0.01%float n [])
             10.0%float 28.0%float (8 / 3)%float)
          [1; 2; 3]%float)
       [1; 2; 3]%float)
    [1; 2; 3]%float.

(** ** Binary64 numbers up to the sign of zero *)

(** Two results of the specification of binary64 are the same number: they
    are equal, or both are zeros (of any sign). *)
Definition SFsim (x y : spec_float) : Prop :=
  match x, y with
  | S754_zero _, S754_zero _ => True
  | _, _ => x = y
  end.

Definition fsim (a b : float) : Prop := SFsim (Prim2SF a) (Prim2SF b).

(** The test that two binary64 numbers are the same number: both are
    not-a-number, or they compare equal with [==] (as 0.0 and -0.0 do). *)
Definition same_number (a b : float) : bool :=
  (is_nan a && is_nan b) || (a =? b)%float.

(** The mirrored configuration in binary64. *)
Definition mirror_config_binary64 (c : Config float) : Config float :=
  {| cfg_deltat := cfg_deltat c; cfg_ntot := cfg_ntot c;
     cfg_sigma := cfg_sigma c; cfg_smallr := cfg_smallr c; cfg_smallb := cfg_smallb c;
     cfg_initx := (- cfg_initx c)%float; cfg_inity := (- cfg_inity c)%float;
     cfg_initz := cfg_initz c |}.

(** Two states are mirror images of each other, for a relation [E] between
    values that have to be alike and a relation [M] between values that
    have to be opposite. *)
Definition mirrored {T : Type} (E M : T -> T -> Prop) (u v : T * T * T) : Prop :=
  M (fst (fst u)) (fst (fst v)) /\ M (snd (fst u)) (snd (fst v)) /\ E (snd u) (snd v).

(** [b] is the opposite of [a], up to the sign of zero. *)
Definition fopp (a b : float) : Prop := fsim b (- a)%float.

(** The second state is the mirror of the first, component by component,
    as numbers. *)
Definition mirror_alike (u v : float * float * float) : bool :=
  same_number (px v) (- px u)%float
  && same_number (py v) (- py u)%float
  && same_number (pz v) (pz u).

(** ** The classic scheme, as the specification writes it *)

Section Classic.
Context {T : Type} `{Num T}.
Local Open Scope num_scope.


(** A step size that is neither positive nor negative: 0.0, -0.0 or
    not-a-number. *)
Definition signless (h : T) : bool := negb (h >? #0) && negb (#0 >? h).

(** What the notebook relies on when the step is zero: [np.arange] raises
    on a step that is neither positive nor negative. *)
Definition arange_rejects_signless (np_arange : T -> T -> T -> exc (list T)) : Prop :=
  forall start stop step,
    signless step = true -> exists e, np_arange start stop step = Raise e.

End Classic.

(** [np.arange] on binary64 arguments, as far as the notebook depends on
    it: it raises on a step that is zero or not a number and when the
    number of entries [(stop - start)/step] is not finite; otherwise it
    returns an array, which the notebook binds to [timing] and never reads
    (it is left empty here). *)
Definition arange_checked (start stop step : float) : exc (list float) :=
  if signless step || negb (is_finite ((stop - start) / step))
  then Raise ArangeError
  else Ok [].

(** * Properties *)

(** ** Arrays *)

Lemma firstn_seq (k a n : nat) : firstn k (seq a n) = seq a (Nat.min k n).
Proof.
  revert a n. induction k as [|k IH]; intros a [|n]; simpl; try reflexivity.
  now rewrite IH.
Qed.

Lemma skipn_repeat {A : Type} (x : A) (k n : nat) :
  skipn k (repeat x n) = repeat x (n - k).
Proof.
  revert n. induction k as [|k IH]; intros [|n]; simpl; try reflexivity.
  apply IH.
Qed.

Section ArrayFacts.
Context {T : Type} `{Num T}.

Lemma getitem_at (pre : list T) (x : T) (post : list T) :
  getitem (pre ++ x :: post) (length pre) = Ok x.
Proof.
  unfold getitem. rewrite nth_error_app2 by lia.
  rewrite Nat.sub_diag. reflexivity.
Qed.

Lemma update_at (pre : list T) (w : T) (post : list T) (v : T) :
  update (pre ++ w :: post) (length pre) v = pre ++ v :: post.
Proof.
  induction pre as [|a pre IH]; simpl; [reflexivity|].
  now rewrite IH.
Qed.

Lemma setitem_at (pre : list T) (w : T) (post : list T) (v : T) :
  setitem (pre ++ w :: post) (length pre) v = Ok (pre ++ v :: post).
Proof.
  unfold setitem.
  assert (Hlt : (length pre <? length (pre ++ w :: post))%nat = true).
  { apply Nat.ltb_lt. rewrite length_app. simpl. lia. }
  rewrite Hlt, update_at. reflexivity.
Qed.

Lemma setitem_next (pre : list T) (x w : T) (post : list T) (v : T) :
  setitem (pre ++ x :: w :: post) (length pre + 1) v = Ok (pre ++ x :: v :: post).
Proof.
  replace (pre ++ x :: w :: post) with ((pre ++ [x]) ++ w :: post)
    by (rewrite <- app_assoc; reflexivity).
  replace (length pre + 1)%nat with (length (pre ++ [x]))
    by (rewrite length_app; reflexivity).
  rewrite setitem_at, <- app_assoc. reflexivity.
Qed.

Lemma getitem_map_at {A : Type} (f : A -> T) (pre : list A) (x : T) (post : list T) :
  getitem (map f pre ++ x :: post) (length pre) = Ok x.
Proof. rewrite <- (length_map f pre). apply getitem_at. Qed.

Lemma setitem_map_next {A : Type} (f : A -> T) (pre : list A) (x w : T)
    (post : list T) (v : T) :
  setitem (map f pre ++ x :: w :: post) (length pre + 1) v
  = Ok (map f pre ++ x :: v :: post).
Proof. rewrite <- (length_map f pre). apply setitem_next. Qed.

Lemma np_zeros_nonneg (n : Z) :
  (0 <= n)%Z -> np_zeros n = Ok (repeat (of_int 0) (Z.to_nat n)).
Proof.
  intros Hn. unfold np_zeros.
  destruct (Z.ltb_spec n 0); [lia | reflexivity].
Qed.

Lemma np_zeros_negative (n : Z) :
  (n < 0)%Z -> np_zeros n = Raise ValueError.
Proof.
  intros Hn. unfold np_zeros.
  destruct (Z.ltb_spec n 0); [reflexivity | lia].
Qed.

End ArrayFacts.

(** ** The loop *)

Section LoopFacts.
Context {T : Type} `{Num T}.
Local Open Scope num_scope.

Lemma orbit_length (n : nat) (h : T) (p : Params) (st : State) :
  length (orbit n h p st) = n.
Proof.
  revert st. induction n as [|n IH]; intros st; simpl; [reflexivity|].
  now rewrite IH.
Qed.

(** Entry [i] of an orbit does not depend on how far the orbit goes. *)
Lemma orbit_prefix (n m i : nat) (h : T) (p : Params) (st : State) :
  (i < n)%nat -> (i < m)%nat ->
  nth_error (orbit n h p st) i = nth_error (orbit m h p st) i.
Proof.
  revert m i st. induction n as [|n IH]; intros m i st Hn Hm; [lia|].
  destruct m as [|m]; [lia|].
  destruct i as [|i]; simpl; [reflexivity|].
  apply IH; lia.
Qed.

(** Each entry of an orbit after the first is the one before, advanced. *)
Lemma orbit_step (n i : nat) (h : T) (p : Params) (st a : State) :
  nth_error (orbit n h p st) i = Some a -> (S i < n)%nat ->
  nth_error (orbit n h p st) (S i) = Some (advance h p a).
Proof.
  revert i st. induction n as [|n IH]; intros i st Ha Hi; [lia|].
  destruct i as [|i]; simpl in *.
  - injection Ha as <-. destruct n; [lia | reflexivity].
  - apply IH; [exact Ha | lia].
Qed.

(** One iteration writes entry [ii+1] of each array and nothing else. *)
Lemma loop_body_spec (s : Store T) (pre : list State) (cur : State)
    (wx wy wz : T) (xt yt zt : list T) :
  xvalues s = map px pre ++ px cur :: wx :: xt ->
  yvalues s = map py pre ++ py cur :: wy :: yt ->
  zvalues s = map pz pre ++ pz cur :: wz :: zt ->
  exists s',
    loop_body (length pre) s = Ok s' /\
    same_config s s' /\
    let nxt := advance (deltat s) (store_params s) cur in
    xvalues s' = map px pre ++ px cur :: px nxt :: xt /\
    yvalues s' = map py pre ++ py cur :: py nxt :: yt /\
    zvalues s' = map pz pre ++ pz cur :: pz nxt :: zt.
Proof.
  intros Hx Hy Hz. destruct cur as [[x y] z].
  unfold loop_body, advance, store_params. cbn [px py pz fst snd] in *.
  cbn [assign_ii xvalues yvalues zvalues ii deltat sigma smallr smallb].
  rewrite Hx, Hy, Hz, !getitem_map_at. cbn [bind].
  destruct (rk4_xyz x y z (deltat s) systemLorenz1963 (sigma s, smallr s, smallb s))
    as [[sx sy] sz].
  cbn [assign_step assign_ii assign_xvalues assign_yvalues assign_zvalues
       xvalues yvalues zvalues ii stepx stepy stepz
       deltat ntot sigma smallr smallb].
  rewrite Hx, getitem_map_at. cbn [bind]. rewrite setitem_map_next. cbn [bind].
  rewrite Hy, getitem_map_at. cbn [bind]. rewrite setitem_map_next. cbn [bind].
  rewrite Hz, getitem_map_at. cbn [bind]. rewrite setitem_map_next. cbn [bind].
  eexists. split; [reflexivity|].
  unfold same_config, store_params. cbn. repeat split; reflexivity.
Qed.

(** [n] iterations from index [length pre] fill the next [n] entries with
    the orbit of the current state. *)
Lemma for_each_orbit (n : nat) :
  forall (s : Store T) (pre : list State) (cur : State) (xt yt zt : list T),
  xvalues s = map px pre ++ px cur :: xt ->
  yvalues s = map py pre ++ py cur :: yt ->
  zvalues s = map pz pre ++ pz cur :: zt ->
  (n <= length xt)%nat -> (n <= length yt)%nat -> (n <= length zt)%nat ->
  exists s',
    for_each (seq (length pre) n) loop_body s = Ok s' /\
    same_config s s' /\
    let o := orbit (S n) (deltat s) (store_params s) cur in
    xvalues s' = map px (pre ++ o) ++ skipn n xt /\
    yvalues s' = map py (pre ++ o) ++ skipn n yt /\
    zvalues s' = map pz (pre ++ o) ++ skipn n zt.
Proof.
  induction n as [|n IH]; intros s pre cur xt yt zt Hx Hy Hz Lx Ly Lz.
  - exists s. cbn [seq for_each orbit skipn].
    split; [reflexivity|]. split; [repeat split|].
    rewrite !map_app. cbn [map]. rewrite <- !app_assoc. cbn [app].
    auto.
  - destruct xt as [|wx xt]; [simpl in Lx; lia|].
    destruct yt as [|wy yt]; [simpl in Ly; lia|].
    destruct zt as [|wz zt]; [simpl in Lz; lia|].
    simpl in Lx, Ly, Lz.
    destruct (loop_body_spec s pre cur wx wy wz xt yt zt Hx Hy Hz)
      as (s1 & Hrun & (Hdt & Hnt & Hpar) & Hx1 & Hy1 & Hz1).
    set (nxt := advance (deltat s) (store_params s) cur) in *.
    destruct (IH s1 (pre ++ [cur]) nxt xt yt zt) as (s' & Hrun' & Hcfg' & Hx' & Hy' & Hz').
    + rewrite Hx1, map_app, <- app_assoc. reflexivity.
    + rewrite Hy1, map_app, <- app_assoc. reflexivity.
    + rewrite Hz1, map_app, <- app_assoc. reflexivity.
    + lia.
    + lia.
    + lia.
    + exists s'. rewrite length_app in Hrun'. cbn [length] in Hrun'.
      rewrite Nat.add_1_r in Hrun'.
      cbn [seq for_each]. rewrite Hrun. cbn [bind].
      split; [exact Hrun'|].
      split.
      { destruct Hcfg' as (A & B & C). repeat split; congruence. }
      rewrite Hdt, Hpar in Hx', Hy', Hz'.
      cbn [orbit skipn] in *. fold nxt.
      rewrite <- !app_assoc in Hx', Hy', Hz'. cbn [app] in *.
      auto.
Qed.

(** The orbit read back through [entry], whatever follows it in the arrays. *)
Lemma entry_orbit_app (s : Store T) (o : list State) (xt yt zt : list T) (i : nat) :
  xvalues s = map px o ++ xt -> yvalues s = map py o ++ yt ->
  zvalues s = map pz o ++ zt -> (i < length o)%nat ->
  entry s i = nth_error o i.
Proof.
  intros Hx Hy Hz Hi. unfold entry. rewrite Hx, Hy, Hz.
  rewrite !nth_error_app1 by (rewrite length_map; exact Hi).
  rewrite !nth_error_map.
  destruct (nth_error o i) as [[[x y] z]|]; reflexivity.
Qed.

Lemma entry_orbit (s : Store T) (o : list State) (i : nat) :
  xvalues s = map px o -> yvalues s = map py o -> zvalues s = map pz o ->
  entry s i = nth_error o i.
Proof.
  intros Hx Hy Hz. unfold entry. rewrite Hx, Hy, Hz, !nth_error_map.
  destruct (nth_error o i) as [[[x y] z]|]; reflexivity.
Qed.

Lemma orbit_nth_some (n i : nat) (h : T) (p : Params) (st : State) :
  (i < n)%nat -> exists a, nth_error (orbit n h p st) i = Some a.
Proof.
  intros Hi. destruct (nth_error (orbit n h p st) i) as [a|] eqn:E; [eauto|].
  apply nth_error_None in E. rewrite orbit_length in E. lia.
Qed.

End LoopFacts.

(** ** The configuration cells and the whole simulation *)

Section SimulationFacts.
Context {T : Type} `{Num T}.
Local Open Scope num_scope.
Variable np_arange : T -> T -> T -> exc (list T).

Lemma configure_ok (c : Config T) (s : Store T) :
  arange_returns np_arange c -> (1 <= cfg_ntot c)%Z ->
  exists s0,
    configure np_arange c s = Ok s0 /\
    deltat s0 = cfg_deltat c /\ ntot s0 = cfg_ntot c /\
    store_params s0 = cfg_params c /\
    xvalues s0 = cfg_initx c :: repeat #0 (Z.to_nat (cfg_ntot c - 1)) /\
    yvalues s0 = cfg_inity c :: repeat #0 (Z.to_nat (cfg_ntot c - 1)) /\
    zvalues s0 = cfg_initz c :: repeat #0 (Z.to_nat (cfg_ntot c - 1)).
Proof.
  intros [t Ht] HN.
  unfold configure, cell_time_stepping, cell_parameters, cell_initial_conditions.
  rewrite Ht. cbn [bind assign_time_stepping assign_parameters assign_init
    assign_xvalues assign_yvalues assign_zvalues ntot xvalues yvalues zvalues
    initx inity initz].
  rewrite np_zeros_nonneg by lia. cbn [bind].
  replace (Z.to_nat (cfg_ntot c)) with (S (Z.to_nat (cfg_ntot c - 1))) by lia.
  cbn [repeat setitem length Nat.ltb Nat.leb update bind].
  eexists. split; [reflexivity|].
  cbn. repeat split; reflexivity.
Qed.

(** The simulation stopped after [k] iterations holds the orbit of the
    initial state up to entry [k], and zeros after it. *)
Lemma simulate_upto_orbit (k : nat) (c : Config T) (s : Store T) :
  arange_returns np_arange c -> (1 <= cfg_ntot c)%Z -> (Z.of_nat k <= cfg_ntot c - 1)%Z ->
  exists s',
    simulate_upto np_arange k c s = Ok s' /\
    ntot s' = cfg_ntot c /\
    let o := orbit (S k) (cfg_deltat c) (cfg_params c) (init_state c) in
    let z := repeat #0 (Z.to_nat (cfg_ntot c - 1) - k) in
    xvalues s' = map px o ++ z /\
    yvalues s' = map py o ++ z /\
    zvalues s' = map pz o ++ z.
Proof.
  intros Ha HN Hk.
  destruct (configure_ok c s Ha HN) as (s0 & Hc & Hdt & Hnt & Hpar & Hx & Hy & Hz).
  unfold simulate_upto. rewrite Hc. cbn [bind].
  rewrite Hnt. unfold range. rewrite firstn_seq.
  replace (Nat.min k (Z.to_nat (cfg_ntot c - 1))) with k by lia.
  destruct (for_each_orbit k s0 [] (init_state c)
              (repeat #0 (Z.to_nat (cfg_ntot c - 1)))
              (repeat #0 (Z.to_nat (cfg_ntot c - 1)))
              (repeat #0 (Z.to_nat (cfg_ntot c - 1))))
    as (s' & Hrun & (_ & Hnt' & _) & Hx' & Hy' & Hz');
    try (rewrite repeat_length; lia); try assumption.
  exists s'. split; [exact Hrun|]. split; [congruence|].
  rewrite Hdt, Hpar in Hx', Hy', Hz'. cbn [app] in Hx', Hy', Hz'.
  rewrite skipn_repeat in Hx', Hy', Hz'. auto.
Qed.

Lemma simulate_upto_all (c : Config T) (s : Store T) :
  simulate_upto np_arange (Z.to_nat (cfg_ntot c - 1)) c s = simulate np_arange c s.
Proof.
  unfold simulate_upto, simulate, cell_loop.
  destruct (configure np_arange c s) as [s0|e] eqn:E; [|reflexivity].
  cbn [bind].
  assert (Hs : ntot s0 = cfg_ntot c).
  { unfold configure, cell_time_stepping, cell_parameters, cell_initial_conditions in E.
    destruct (np_arange _ _ _); [|discriminate]. cbn [bind] in E.
    repeat match type of E with
           | bind ?c _ = _ => destruct c; [cbn [bind] in E | discriminate]
           end.
    injection E as <-. reflexivity. }
  rewrite Hs. unfold range. rewrite firstn_seq, Nat.min_id. reflexivity.
Qed.

(** After the loop the arrays hold the orbit of the initial state. *)
Lemma simulate_orbit (c : Config T) (s : Store T) :
  arange_returns np_arange c -> (1 <= cfg_ntot c)%Z ->
  exists s',
    simulate np_arange c s = Ok s' /\
    ntot s' = cfg_ntot c /\
    let o := orbit (Z.to_nat (cfg_ntot c)) (cfg_deltat c) (cfg_params c) (init_state c) in
    xvalues s' = map px o /\ yvalues s' = map py o /\ zvalues s' = map pz o.
Proof.
  intros Ha HN.
  destruct (simulate_upto_orbit (Z.to_nat (cfg_ntot c - 1)) c s Ha HN)
    as (s' & Hrun & Hnt & Hx & Hy & Hz); [lia|].
  rewrite simulate_upto_all in Hrun.
  exists s'. split; [exact Hrun|]. split; [exact Hnt|].
  rewrite Nat.sub_diag in Hx, Hy, Hz. cbn [repeat] in Hx, Hy, Hz.
  rewrite app_nil_r in Hx, Hy, Hz.
  replace (S (Z.to_nat (cfg_ntot c - 1))) with (Z.to_nat (cfg_ntot c)) in Hx, Hy, Hz by lia.
  auto.
Qed.

End SimulationFacts.

(** ** Relative maxima *)

Lemma seq_sorted (a n : nat) : StronglySorted lt (seq a n).
Proof.
  revert a. induction n as [|n IH]; intros a; simpl; constructor.
  - apply IH.
  - apply Forall_forall. intros i Hi. apply in_seq in Hi. lia.
Qed.

Lemma filter_sorted {A : Type} (R : A -> A -> Prop) (f : A -> bool) (l : list A) :
  StronglySorted R l -> StronglySorted R (filter f l).
Proof.
  induction 1 as [|a l Hs IH Ha]; simpl; [constructor|].
  destruct (f a); [|exact IH].
  constructor; [exact IH|].
  apply Forall_forall. intros b Hb. apply filter_In in Hb.
  rewrite Forall_forall in Ha. apply Ha, Hb.
Qed.

Section MaximaFacts.
Context {T : Type} `{Num T}.
Local Open Scope num_scope.

Lemma getitem_nth (zs : list T) (i : nat) (d : T) :
  (i < length zs)%nat -> getitem zs i = Ok (nth i zs d).
Proof.
  intros Hi. unfold getitem.
  rewrite (nth_error_nth' zs d Hi). reflexivity.
Qed.

Lemma is_rel_max_spec (zs : list T) (i : nat) :
  (i + 1 < length zs)%nat -> is_rel_max zs i = Ok (strict_max zs i).
Proof.
  intros Hi. unfold is_rel_max, strict_max.
  rewrite (getitem_nth zs i #0) by lia. cbn [bind].
  rewrite (getitem_nth zs (i - 1) #0) by lia. cbn [bind].
  destruct (nth i zs #0 >? nth (i - 1) zs #0); [|reflexivity].
  cbn [bind andb].
  rewrite (getitem_nth zs (i + 1) #0) by lia. reflexivity.
Qed.

(** The comprehension over indices that have a right neighbour raises
    nothing and keeps, in order, the entries at the strict maxima. *)
Lemma comprehension_spec (zs : list T) (l : list nat) :
  Forall (fun i => (i + 1 < length zs)%nat) l ->
  comprehension zs l = Ok (map (fun i => nth i zs #0) (filter (strict_max zs) l)).
Proof.
  induction 1 as [|i l Hi Hl IH]; [reflexivity|].
  cbn [comprehension filter]. rewrite (is_rel_max_spec zs i Hi). cbn [bind].
  destruct (strict_max zs i).
  - rewrite (getitem_nth zs i #0) by lia. cbn [bind map]. rewrite IH. reflexivity.
  - exact IH.
Qed.

Lemma rel_maxima_spec (zs : list T) :
  rel_maxima zs (Z.of_nat (length zs))
  = Ok (map (fun i => nth i zs #0) (filter (strict_max zs) (interior (length zs)))).
Proof.
  unfold rel_maxima, range_from, interior.
  replace (Z.to_nat (Z.of_nat (length zs) - 1 - Z.of_nat 1)) with (length zs - 2)%nat by lia.
  apply comprehension_spec, Forall_forall.
  intros i Hi. apply in_seq in Hi. lia.
Qed.

End MaximaFacts.

(** * The claims *)

Section Trajectory.
Context {T : Type} `{Num T}.
Local Open Scope num_scope.
Variable np_arange : T -> T -> T -> exc (list T).

(** C3.  For a configuration with [ntot >= 1] (on which [np.arange]
    returns), the loop completes; the three arrays then have length [ntot],
    entry 0 is the configured initial state, every entry [i] from 1 to
    [ntot-1] is entry [i-1] plus the increment [rk4_xyz] computes from entry
    [i-1] with [systemLorenz1963], the parameters and the step [deltat]; and
    an entry never changes once written: after [k] iterations every entry
    [i <= k] already holds its final value. *)
Theorem trajectory_invariant (c : Config T) (s : Store T) :
  arange_returns np_arange c -> (1 <= cfg_ntot c)%Z ->
  exists s',
    simulate np_arange c s = Ok s' /\
    (Z.of_nat (length (xvalues s')) = cfg_ntot c /\
     Z.of_nat (length (yvalues s')) = cfg_ntot c /\
     Z.of_nat (length (zvalues s')) = cfg_ntot c) /\
    entry s' 0 = Some (init_state c) /\
    (forall i : nat, (1 <= i)%nat -> (Z.of_nat i <= cfg_ntot c - 1)%Z ->
       exists x y z,
         entry s' (i - 1) = Some (x, y, z) /\
         let '(dx, dy, dz) :=
           rk4_xyz x y z (cfg_deltat c) systemLorenz1963 (cfg_params c) in
         entry s' i = Some (x + dx, y + dy, z + dz)) /\
    (forall k i : nat, (i <= k)%nat -> (Z.of_nat k <= cfg_ntot c - 1)%Z ->
       exists sk,
         simulate_upto np_arange k c s = Ok sk /\ entry sk i = entry s' i).
Proof.
  intros Ha HN.
  destruct (simulate_orbit np_arange c s Ha HN) as (s' & Hrun & _ & Hx & Hy & Hz).
  set (n := Z.to_nat (cfg_ntot c)) in *.
  set (o := orbit n (cfg_deltat c) (cfg_params c) (init_state c)) in *.
  assert (Hn : (1 <= n)%nat) by (unfold n; lia).
  exists s'. split; [exact Hrun|].
  split.
  { rewrite Hx, Hy, Hz, !length_map. unfold o. rewrite orbit_length.
    unfold n. repeat split; lia. }
  split.
  { rewrite (entry_orbit s' o 0 Hx Hy Hz). unfold o.
    destruct n; [lia | reflexivity]. }
  split.
  - intros i Hi1 Hi2.
    destruct (orbit_nth_some n (i - 1) (cfg_deltat c) (cfg_params c) (init_state c))
      as [[[x y] z] Hprev]; [unfold n; lia|].
    exists x, y, z.
    rewrite !(entry_orbit s' o _ Hx Hy Hz). split; [exact Hprev|].
    pose proof (orbit_step n (i - 1) _ _ _ _ Hprev) as Hnext.
    replace (S (i - 1)) with i in Hnext by lia.
    unfold advance in Hnext.
    destruct (rk4_xyz x y z (cfg_deltat c) systemLorenz1963 (cfg_params c))
      as [[dx dy] dz].
    apply Hnext. unfold n. lia.
  - intros k i Hik Hk.
    destruct (simulate_upto_orbit np_arange k c s Ha HN Hk) as (sk & Hsk & _ & Hxk & Hyk & Hzk).
    exists sk. split; [exact Hsk|].
    rewrite (entry_orbit s' o i Hx Hy Hz).
    rewrite (entry_orbit_app sk _ _ _ _ i Hxk Hyk Hzk)
      by (rewrite orbit_length; lia).
    apply orbit_prefix; [lia | unfold n; lia].
Qed.

End Trajectory.

Ltac decide_Rgt :=
  repeat match goal with
         | |- context [Rgt_dec ?a ?b] => destruct (Rgt_dec a b); try lra
         end.

(** C4.  On a series [V] of length [N] the comprehension returns the values
    [V[i]], by ascending index, of exactly the interior indices
    [1 <= i <= N-2] whose entry is strictly greater than both neighbours; a
    series of fewer than three entries gives the empty list and no error.
    [1,3,2,5,4] gives [3,5]; [1,2,3], [5,1,5] and the plateau [1,2,2,1] give
    the empty list. *)
Theorem rel_maxima_strict_interior :
  (forall (T : Type) (N : Num T) (V : list T),
     exists idx : list nat,
       rel_maxima V (Z.of_nat (length V)) = Ok (map (fun i => nth i V (of_int 0)) idx) /\
       StronglySorted lt idx /\
       forall i : nat,
         In i idx <->
         ((1 <= i)%nat /\ (i + 2 <= length V)%nat) /\
         gtb (nth i V (of_int 0)) (nth (i - 1) V (of_int 0)) = true /\
         gtb (nth i V (of_int 0)) (nth (i + 1) V (of_int 0)) = true) /\
  (forall (T : Type) (N : Num T) (a b : T),
     rel_maxima (@nil T) 0 = Ok [] /\
     rel_maxima [a] 1 = Ok [] /\
     rel_maxima [a; b] 2 = Ok []) /\
  (rel_maxima [1; 3; 2; 5; 4]%float 5 = Ok [3; 5]%float /\
   rel_maxima [1; 2; 3]%float 3 = Ok [] /\
   rel_maxima [5; 1; 5]%float 3 = Ok [] /\
   rel_maxima [1; 2; 2; 1]%float 4 = Ok []) /\
  (rel_maxima [1; 3; 2; 5; 4]%R 5 = Ok [3; 5]%R /\
   rel_maxima [1; 2; 3]%R 3 = Ok [] /\
   rel_maxima [5; 1; 5]%R 3 = Ok [] /\
   rel_maxima [1; 2; 2; 1]%R 4 = Ok []).
Proof.
  split; [|split; [|split]].
  - intros T N V.
    exists (filter (strict_max V) (interior (length V))).
    split; [apply rel_maxima_spec|].
    split; [apply filter_sorted, seq_sorted|].
    intros i. rewrite filter_In. unfold interior, strict_max.
    rewrite in_seq, andb_true_iff. split.
    + intros [Hi Hm]. split; [lia | exact Hm].
    + intros [Hi Hm]. split; [lia | exact Hm].
  - intros T N a b. repeat split; reflexivity.
  - repeat split; vm_compute; reflexivity.
  - repeat split.
    + change 5%Z with (Z.of_nat (length [1; 3; 2; 5; 4]%R)).
      rewrite rel_maxima_spec. cbv [interior seq length Nat.sub filter strict_max nth
        Nat.add map gtb R_Num of_int]. decide_Rgt. reflexivity.
    + change 3%Z with (Z.of_nat (length [1; 2; 3]%R)).
      rewrite rel_maxima_spec. cbv [interior seq length Nat.sub filter strict_max nth
        Nat.add map gtb R_Num of_int]. decide_Rgt. reflexivity.
    + change 3%Z with (Z.of_nat (length [5; 1; 5]%R)).
      rewrite rel_maxima_spec. cbv [interior seq length Nat.sub filter strict_max nth
        Nat.add map gtb R_Num of_int]. decide_Rgt. reflexivity.
    + change 4%Z with (Z.of_nat (length [1; 2; 2; 1]%R)).
      rewrite rel_maxima_spec. cbv [interior seq length Nat.sub filter strict_max nth
        Nat.add map gtb R_Num of_int]. decide_Rgt. reflexivity.
Qed.

Section Runs.
Context {T : Type} `{Num T}.
Local Open Scope num_scope.
Variable np_arange : T -> T -> T -> exc (list T).

Lemma alike_bind (R R' : Store T -> Store T -> Prop)
    (r1 r2 : exc (Store T)) (k1 k2 : Store T -> exc (Store T)) :
  alike R r1 r2 ->
  (forall s1 s2, R s1 s2 -> alike R' (k1 s1) (k2 s2)) ->
  alike R' (s <- r1 ;; k1 s) (s <- r2 ;; k2 s).
Proof.
  intros Hr Hk. destruct r1 as [s1|e1], r2 as [s2|e2]; cbn in *;
    try contradiction; auto.
Qed.

(** The configuration cells overwrite everything the later cells read. *)
Lemma configure_alike (c : Config T) (s1 s2 : Store T) :
  alike agree (configure np_arange c s1) (configure np_arange c s2).
Proof.
  unfold configure, cell_time_stepping, cell_parameters, cell_initial_conditions.
  destruct (np_arange _ _ _) as [t|e]; [|reflexivity].
  cbn [bind assign_time_stepping assign_parameters assign_init
       assign_xvalues assign_yvalues assign_zvalues ntot xvalues yvalues zvalues
       initx inity initz].
  destruct (np_zeros (cfg_ntot c)) as [a|e]; [|reflexivity]. cbn [bind].
  destruct (setitem a 0 (cfg_initx c)) as [ax|e]; [|reflexivity]. cbn [bind].
  destruct (setitem a 0 (cfg_inity c)) as [ay|e]; [|reflexivity]. cbn [bind].
  destruct (setitem a 0 (cfg_initz c)) as [az|e]; [|reflexivity].
  cbn. unfold agree. cbn. repeat split; reflexivity.
Qed.

Lemma loop_body_alike (i : nat) (s1 s2 : Store T) :
  agree s1 s2 -> alike agree (loop_body i s1) (loop_body i s2).
Proof.
  intros (Hdt & Hnt & Hsg & Hr & Hb & Hx & Hy & Hz).
  unfold loop_body.
  cbn [assign_ii xvalues yvalues zvalues ii deltat sigma smallr smallb].
  rewrite Hdt, Hsg, Hr, Hb, Hx, Hy, Hz.
  destruct (getitem (xvalues s2) i) as [x|e]; [|reflexivity]. cbn [bind].
  destruct (getitem (yvalues s2) i) as [y|e]; [|reflexivity]. cbn [bind].
  destruct (getitem (zvalues s2) i) as [z|e]; [|reflexivity]. cbn [bind].
  destruct (rk4_xyz x y z (deltat s2) systemLorenz1963 (sigma s2, smallr s2, smallb s2))
    as [[sx sy] sz].
  cbn [assign_step assign_ii assign_xvalues assign_yvalues assign_zvalues
       xvalues yvalues zvalues ii stepx stepy stepz].
  rewrite Hx, Hy, Hz.
  destruct (getitem (xvalues s2) i) as [x'|e]; [|reflexivity]. cbn [bind].
  destruct (setitem (xvalues s2) (i + 1) (x' + sx)) as [ax|e]; [|reflexivity]. cbn [bind].
  destruct (getitem (yvalues s2) i) as [y'|e]; [|reflexivity]. cbn [bind].
  destruct (setitem (yvalues s2) (i + 1) (y' + sy)) as [ay|e]; [|reflexivity]. cbn [bind].
  destruct (getitem (zvalues s2) i) as [z'|e]; [|reflexivity]. cbn [bind].
  destruct (setitem (zvalues s2) (i + 1) (z' + sz)) as [az|e]; [|reflexivity].
  cbn. unfold agree. cbn. repeat split; assumption.
Qed.

Lemma for_each_alike (l : list nat) (s1 s2 : Store T) :
  agree s1 s2 -> alike agree (for_each l loop_body s1) (for_each l loop_body s2).
Proof.
  revert s1 s2. induction l as [|i l IH]; intros s1 s2 Ha; cbn [for_each].
  - exact Ha.
  - apply alike_bind with (R := agree); [apply loop_body_alike, Ha | exact IH].
Qed.

Lemma simulate_alike (c : Config T) (s1 s2 : Store T) :
  alike agree (simulate np_arange c s1) (simulate np_arange c s2).
Proof.
  unfold simulate. apply alike_bind with (R := agree); [apply configure_alike|].
  intros a b Hab. unfold cell_loop.
  destruct Hab as (Hdt & Hnt & Hrest). rewrite Hnt.
  apply for_each_alike. repeat split; try assumption; apply Hrest.
Qed.

Lemma run_all_alike (c : Config T) (s1 s2 : Store T) :
  alike (fun a b => agree a b /\ relMaxZ a = relMaxZ b)
        (run_all np_arange c s1) (run_all np_arange c s2).
Proof.
  unfold run_all. apply alike_bind with (R := agree); [apply simulate_alike|].
  intros a b (Hdt & Hnt & Hsg & Hr & Hb & Hx & Hy & Hz).
  unfold cell_rel_maxima. rewrite Hz, Hnt.
  destruct (rel_maxima (zvalues b) (ntot b)) as [l|e]; [|reflexivity].
  cbn. unfold agree. cbn. repeat split; assumption.
Qed.

(** C6.  The arrays and the maxima a run produces (or the exception that
    ends it) are a function of the configuration alone: they are the same
    from any two states of the kernel, in particular when the notebook is
    run again on the state its first run left behind. *)
Theorem run_all_deterministic (c : Config T) (s1 s2 : Store T) :
  result (run_all np_arange c s1) = result (run_all np_arange c s2) /\
  result (s <- run_all np_arange c s1 ;; run_all np_arange c s)
  = result (run_all np_arange c s1).
Proof.
  assert (Hdet : forall a b,
             result (run_all np_arange c a) = result (run_all np_arange c b)).
  { intros a b. pose proof (run_all_alike c a b) as Hab.
    destruct (run_all np_arange c a) as [a'|ea], (run_all np_arange c b) as [b'|eb];
      cbn in *; try contradiction.
    - destruct Hab as ((_ & _ & _ & _ & _ & Hx & Hy & Hz) & Hm).
      rewrite Hx, Hy, Hz, Hm. reflexivity.
    - rewrite Hab. reflexivity. }
  split; [apply Hdet|].
  destruct (run_all np_arange c s1) as [s'|e] eqn:E; cbn [bind]; [|reflexivity].
  rewrite <- E. apply Hdet.
Qed.

(** The whole notebook on a configuration with [ntot >= 1]. *)
Lemma run_all_orbit (c : Config T) (s : Store T) :
  arange_returns np_arange c -> (1 <= cfg_ntot c)%Z ->
  exists s',
    run_all np_arange c s = Ok s' /\
    let o := orbit (Z.to_nat (cfg_ntot c)) (cfg_deltat c) (cfg_params c) (init_state c) in
    xvalues s' = map px o /\ yvalues s' = map py o /\ zvalues s' = map pz o /\
    relMaxZ s'
    = map (fun i => nth i (zvalues s') #0)
          (filter (strict_max (zvalues s')) (interior (Z.to_nat (cfg_ntot c)))).
Proof.
  intros Ha HN.
  destruct (simulate_orbit np_arange c s Ha HN) as (s0 & Hrun & Hnt & Hx & Hy & Hz).
  unfold run_all, cell_rel_maxima. rewrite Hrun. cbn [bind].
  assert (Hlen : ntot s0 = Z.of_nat (length (zvalues s0))).
  { rewrite Hz, length_map, orbit_length, Hnt. lia. }
  rewrite Hlen, rel_maxima_spec. cbn [bind].
  eexists. split; [reflexivity|].
  cbn [assign_relMaxZ xvalues yvalues zvalues relMaxZ].
  repeat split; try assumption.
  rewrite Hz at 2. rewrite length_map, orbit_length. reflexivity.
Qed.

(** C8.  With [ntot = 1] the run completes, each array holds exactly one
    entry, the initial state, and the list of maxima is empty. *)
Theorem single_entry_run (c : Config T) (s : Store T) :
  arange_returns np_arange c -> cfg_ntot c = 1%Z ->
  exists s',
    run_all np_arange c s = Ok s' /\
    xvalues s' = [cfg_initx c] /\
    yvalues s' = [cfg_inity c] /\
    zvalues s' = [cfg_initz c] /\
    relMaxZ s' = [].
Proof.
  intros Ha HN.
  destruct (run_all_orbit c s Ha) as (s' & Hrun & Hx & Hy & Hz & Hm); [lia|].
  rewrite HN in *. exists s'. split; [exact Hrun|].
  cbn in Hx, Hy, Hz, Hm. auto.
Qed.

End Runs.

(** ** The vector field and the stepper *)

Section RealArithmetic.
Local Open Scope R_scope.

Ltac real_ops := cbn [add sub mul div of_int R_Num px py pz fst snd].

Lemma triple_eq {A : Type} (a a' b b' c c' : A) :
  a = a' -> b = b' -> c = c' -> (a, b, c) = (a', b', c').
Proof. congruence. Qed.


Lemma rk4_xyz_weights {T : Type} `{Num T} (P : Type)
    (f : T -> T -> T -> P -> T * T * T) (x y z h : T) (p : P) :
  rk4_xyz x y z h f p
  = let '(tx, ty, tz) := rk4_weights x y z h f p in
    (mul tx h, mul ty h, mul tz h).
Proof.
  unfold rk4_xyz, rk4_weights.
  destruct (f x y z p) as [[k1x k1y] k1z].
  destruct (f _ _ _ p) as [[k2x k2y] k2z].
  destruct (f _ _ _ p) as [[k3x k3y] k3z].
  destruct (f _ _ _ p) as [[k4x k4y] k4z].
  reflexivity.
Qed.

(** The product of a binary64 number and [0.0]. *)
Lemma mul_zero_binary64 (t : float) : zero_or_nan t (t * 0)%float = true.
Proof.
  unfold zero_or_nan, is_finite, is_nan, is_infinity, is_zero.
  rewrite !FloatAxioms.eqb_spec, abs_spec, mul_spec.
  change (Prim2SF 0%float) with (S754_zero false).
  change (Prim2SF infinity) with (S754_infinity false).
  destruct (Prim2SF t) as [s | s | | s m e].
  - destruct s; reflexivity.
  - destruct s; reflexivity.
  - reflexivity.
  - unfold SF64mul, SFmul, SFabs, SFeqb, SFcompare.
    rewrite Z.compare_refl, Pos.compare_cont_refl.
    destruct s; reflexivity.
Qed.

(** C7, as the code behaves.  In real arithmetic [rk4_xyz] with step 0
    returns (0, 0, 0) for every state, parameter value and function.  In
    binary64 each component of the increment is the product of a weighted
    sum and 0.0: it is zero when that sum is finite and not a number when
    the sum is infinite or not a number. *)
Theorem rk4_zero_step :
  (forall (P : Type) (f : R -> R -> R -> P -> R * R * R) (x y z : R) (p : P),
     rk4_xyz x y z 0 f p = (0, 0, 0)) /\
  (forall (P : Type) (f : float -> float -> float -> P -> float * float * float)
          (x y z : float) (p : P),
     let '(tx, ty, tz) := rk4_weights x y z 0%float f p in
     let '(sx, sy, sz) := rk4_xyz x y z 0%float f p in
     zero_or_nan tx sx = true /\ zero_or_nan ty sy = true /\ zero_or_nan tz sz = true).
Proof.
  split.
  - intros P f x y z p. rewrite rk4_xyz_weights.
    destruct (rk4_weights x y z 0 f p) as [[tx ty] tz]. real_ops.
    apply triple_eq; ring.
  - intros P f x y z p. rewrite rk4_xyz_weights.
    destruct (rk4_weights x y z 0%float f p) as [[tx ty] tz].
    cbn [mul float_Num]. repeat split; apply mul_zero_binary64.
Qed.

(** C2, as the code computes.  The field is the triple
    [(-sigma x + sigma y, (r - z) x - y, x y - b z)] for every state and
    parameter triple; at the state (0, 1, 0) with parameters (10, 28, 8/3)
    it is (10, -1, 0), in real arithmetic and in binary64 alike. *)
Theorem systemLorenz1963_closed_form :
  (forall x y z sg r b : R,
     systemLorenz1963 x y z (sg, r, b)
     = (- sg * x + sg * y, (r - z) * x - y, x * y - b * z)) /\
  systemLorenz1963 0 1 0 (10, 28, 8 / 3) = (10, -1, 0) /\
  systemLorenz1963 0%float 1%float 0%float (10, 28, 8 / 3)%float
  = (10, -1, 0)%float.
Proof.
  split; [|split].
  - intros. unfold systemLorenz1963. real_ops. apply triple_eq; ring.
  - unfold systemLorenz1963. real_ops. apply triple_eq; field.
  - vm_compute. reflexivity.
Qed.

(** ** The mirror symmetry *)

Lemma systemLorenz1963_mirror (x y z : R) (p : Params) :
  systemLorenz1963 (- x) (- y) z p = mirror (systemLorenz1963 x y z p).
Proof.
  destruct p as [[sg r] b]. unfold systemLorenz1963, mirror. real_ops.
  apply triple_eq; ring.
Qed.

(** The stepper commutes with the mirror for every field that does. *)
Lemma rk4_xyz_mirror (P : Type) (f : R -> R -> R -> P -> R * R * R) (p : P) :
  (forall x y z, f (- x) (- y) z p = mirror (f x y z p)) ->
  forall x y z h, rk4_xyz (- x) (- y) z h f p = mirror (rk4_xyz x y z h f p).
Proof.
  intros Hf x y z h.
  assert (E2 : forall u v, - u + h * - v / 2 = - (u + h * v / 2)) by (intros; field).
  assert (E1 : forall u v, - u + h * - v = - (u + h * v)) by (intros; ring).
  unfold rk4_xyz. real_ops.
  rewrite Hf. destruct (f x y z p) as [[k1x k1y] k1z]. cbn [mirror].
  rewrite !E2, Hf. destruct (f _ _ _ p) as [[k2x k2y] k2z]. cbn [mirror].
  rewrite !E2, Hf. destruct (f _ _ _ p) as [[k3x k3y] k3z]. cbn [mirror].
  rewrite !E1, Hf. destruct (f _ _ _ p) as [[k4x k4y] k4z]. cbn [mirror].
  apply triple_eq; field.
Qed.

Lemma advance_mirror (h : R) (p : Params) (st : State) :
  advance h p (mirror st) = mirror (advance h p st).
Proof.
  destruct st as [[x y] z]. unfold advance. cbn [mirror].
  rewrite (rk4_xyz_mirror Params systemLorenz1963 p
             (fun a b c => systemLorenz1963_mirror a b c p)).
  destruct (rk4_xyz x y z h systemLorenz1963 p) as [[sx sy] sz].
  cbn [mirror]. real_ops. apply triple_eq; ring.
Qed.

Lemma orbit_mirror (n : nat) (h : R) (p : Params) (st : State) :
  orbit n h p (mirror st) = map mirror (orbit n h p st).
Proof.
  revert st. induction n as [|n IH]; intros st; cbn [orbit map]; [reflexivity|].
  rewrite advance_mirror, IH. reflexivity.
Qed.

(** In real arithmetic the field and the stepper commute with the mirror
    [(x, y, z) -> (-x, -y, z)], and so does the run: started from
    [(-x0, -y0, z0)] it produces at every index [0 <= i <= ntot-1] the
    mirror [(-X_i, -Y_i, Z_i)] of the entry produced from [(x0, y0, z0)]. *)
Lemma mirror_symmetry :
  (forall (x y z : R) (p : Params),
     systemLorenz1963 (- x) (- y) z p = mirror (systemLorenz1963 x y z p)) /\
  (forall (x y z h : R) (p : Params),
     rk4_xyz (- x) (- y) z h systemLorenz1963 p
     = mirror (rk4_xyz x y z h systemLorenz1963 p)) /\
  (forall (np_arange : R -> R -> R -> exc (list R)) (c : Config R) (s1 s2 : Store R),
     arange_returns np_arange c -> (1 <= cfg_ntot c)%Z ->
     exists s' m',
       simulate np_arange c s1 = Ok s' /\
       simulate np_arange (mirror_config c) s2 = Ok m' /\
       forall i : nat, (Z.of_nat i <= cfg_ntot c - 1)%Z ->
         exists x y z,
           entry s' i = Some (x, y, z) /\ entry m' i = Some (- x, - y, z)).
Proof.
  split; [exact systemLorenz1963_mirror|]. split.
  { intros x y z h p.
    apply (rk4_xyz_mirror Params systemLorenz1963 p
             (fun a b c => systemLorenz1963_mirror a b c p)). }
  intros np_arange c s1 s2 Ha HN.
  destruct (simulate_orbit np_arange c s1 Ha HN) as (s' & Hrun & _ & Hx & Hy & Hz).
  destruct (simulate_orbit np_arange (mirror_config c) s2 Ha HN)
    as (m' & Hrun' & _ & Hx' & Hy' & Hz').
  exists s', m'. split; [exact Hrun|]. split; [exact Hrun'|].
  intros i Hi.
  change (init_state (mirror_config c)) with (mirror (init_state c)) in Hx', Hy', Hz'.
  cbn [mirror_config cfg_ntot cfg_deltat] in Hx', Hy', Hz'.
  change (cfg_params (mirror_config c)) with (cfg_params c) in Hx', Hy', Hz'.
  rewrite orbit_mirror in Hx', Hy', Hz'.
  rewrite (entry_orbit s' _ i Hx Hy Hz), (entry_orbit m' _ i Hx' Hy' Hz').
  destruct (orbit_nth_some (Z.to_nat (cfg_ntot c)) i (cfg_deltat c) (cfg_params c)
              (init_state c)) as [[[x y] z] Hnth]; [lia|].
  exists x, y, z. split; [exact Hnth|].
  rewrite nth_error_map. exact (f_equal (option_map mirror) Hnth).
Qed.

End RealArithmetic.

(** ** Two runs of the notebook's configuration *)

Lemma trajectory_orbit {T : Type} `{Num T} (s : Store T) (o : list State) :
  xvalues s = map px o -> yvalues s = map py o -> zvalues s = map pz o ->
  trajectory s = o.
Proof.
  intros Hx Hy Hz. unfold trajectory. rewrite Hx, Hy, Hz. clear.
  induction o as [|[[x y] z] o IH]; [reflexivity|].
  cbn [map combine px py pz fst snd]. f_equal. exact IH.
Qed.

Lemma late_divergence_plus : late_divergence (0.1 + 1e-5)%float = true.
Proof. vm_compute. reflexivity. Qed.

Lemma late_divergence_minus : late_divergence (0.1 - 1e-5)%float = true.
Proof. vm_compute. reflexivity. Qed.

Lemma arange_returning_returns {T : Type} `{Num T} (c : Config T) :
  arange_returns arange_returning c.
Proof. exists []. reflexivity. Qed.

(** A run of the notebook's configuration from initial [Y = y] holds the
    orbit of [(0, y, 0)]. *)
Lemma perturbed_run (y : float) (s : Store float) :
  exists s',
    simulate arange_returning (with_inity_ntot notebook_config y 6113) s = Ok s' /\
    trajectory s' = notebook_orbit y.
Proof.
  destruct (simulate_orbit arange_returning (with_inity_ntot notebook_config y 6113) s
              (arange_returning_returns _)) as (s' & Hrun & _ & Hx & Hy & Hz).
  { cbn [with_inity_ntot cfg_ntot]. lia. }
  exists s'. split; [exact Hrun|].
  exact (trajectory_orbit s' _ Hx Hy Hz).
Qed.

Lemma notebook_run (s : Store float) :
  exists s',
    simulate arange_returning notebook_config s = Ok s' /\
    trajectory s' = notebook_orbit (cfg_inity notebook_config).
Proof.
  destruct (simulate_orbit arange_returning notebook_config s
              (arange_returning_returns _)) as (s' & Hrun & _ & Hx & Hy & Hz).
  { cbn [notebook_config cfg_ntot]. lia. }
  exists s'. split; [exact Hrun|].
  exact (trajectory_orbit s' _ Hx Hy Hz).
Qed.

Lemma late_divergence_run (y : float) (s : Store float) :
  late_divergence y = true ->
  exists s1 s2,
    simulate arange_returning notebook_config s = Ok s1 /\
    simulate arange_returning (with_inity_ntot notebook_config y 6113) s = Ok s2 /\
    let d := separations (trajectory s1) (trajectory s2) in
    all_within 0.0035 (firstn 501 d) = true /\
    some_beyond 1 (firstn 3000 d) = false /\
    all_within 1 (firstn 3067 d) = true /\
    (1 <? nth 3067 d 0)%float = true.
Proof.
  intros Hd.
  destruct (notebook_run s) as (s1 & Hrun1 & Ht1).
  destruct (perturbed_run y s) as (s2 & Hrun2 & Ht2).
  exists s1, s2. split; [exact Hrun1|]. split; [exact Hrun2|].
  cbv zeta. rewrite Ht1, Ht2.
  unfold late_divergence in Hd. cbv zeta in Hd.
  apply andb_true_iff in Hd. destruct Hd as [Hd H4].
  apply andb_true_iff in Hd. destruct Hd as [Hd H3].
  apply andb_true_iff in Hd. destruct Hd as [H1 H2].
  apply negb_true_iff in H2.
  split; [exact H1|]. split; [exact H2|]. split; [exact H3 | exact H4].
Qed.

(** C9, as the notebook computes in binary64.  With [deltat = 0.01],
    [ntot = 6113], initial state (0, 0.1, 0) and parameters (10, 28, 8/3),
    the run whose initial [Y] is moved by 1e-5 (up or down) stays within
    0.0035 of the notebook's run in every component up to step 500; the two
    runs do differ by more than 1.0 in some component, but first at step
    3067: up to step 3066 no component differs by more than 1.0. *)
Theorem sensitive_dependence_late (s : Store float) :
  (exists s1 s2,
     simulate arange_returning notebook_config s = Ok s1 /\
     simulate arange_returning
       (with_inity_ntot notebook_config (0.1 + 1e-5)%float 6113) s = Ok s2 /\
     let d := separations (trajectory s1) (trajectory s2) in
     all_within 0.0035 (firstn 501 d) = true /\
     all_within 1 (firstn 3067 d) = true /\
     (1 <? nth 3067 d 0)%float = true) /\
  (exists s1 s2,
     simulate arange_returning notebook_config s = Ok s1 /\
     simulate arange_returning
       (with_inity_ntot notebook_config (0.1 - 1e-5)%float 6113) s = Ok s2 /\
     let d := separations (trajectory s1) (trajectory s2) in
     all_within 0.0035 (firstn 501 d) = true /\
     all_within 1 (firstn 3067 d) = true /\
     (1 <? nth 3067 d 0)%float = true).
Proof.
  split.
  - destruct (late_divergence_run _ s late_divergence_plus)
      as (s1 & s2 & H1 & H2 & Ha & _ & Hb & Hc).
    exists s1, s2. split; [exact H1|]. split; [exact H2|].
    split; [exact Ha|]. split; [exact Hb | exact Hc].
  - destruct (late_divergence_run _ s late_divergence_minus)
      as (s1 & s2 & H1 & H2 & Ha & _ & Hb & Hc).
    exists s1, s2. split; [exact H1|]. split; [exact H2|].
    split; [exact Ha|]. split; [exact Hb | exact Hc].
Qed.

(** C9 fails as stated: no component of the two runs differs by more than
    1.0 at any step before step 3000, whether the initial [Y] is moved up or
    down by 1e-5. *)
Lemma no_divergence_before_step_3000 :
  (exists s1 s2,
     simulate arange_returning notebook_config blank_store = Ok s1 /\
     simulate arange_returning
       (with_inity_ntot notebook_config (0.1 + 1e-5)%float 6113) blank_store = Ok s2 /\
     some_beyond 1 (firstn 3000 (separations (trajectory s1) (trajectory s2))) = false) /\
  (exists s1 s2,
     simulate arange_returning notebook_config blank_store = Ok s1 /\
     simulate arange_returning
       (with_inity_ntot notebook_config (0.1 - 1e-5)%float 6113) blank_store = Ok s2 /\
     some_beyond 1 (firstn 3000 (separations (trajectory s1) (trajectory s2))) = false).
Proof.
  split.
  - destruct (late_divergence_run _ blank_store late_divergence_plus)
      as (s1 & s2 & H1 & H2 & _ & Hb & _).
    exists s1, s2. split; [exact H1|]. split; [exact H2 | exact Hb].
  - destruct (late_divergence_run _ blank_store late_divergence_minus)
      as (s1 & s2 & H1 & H2 & _ & Hb & _).
    exists s1, s2. split; [exact H1|]. split; [exact H2 | exact Hb].
Qed.

(** In binary64 the notebook's own run obeys the mirror symmetry at each of
    its 6113 entries (compared with [==]). *)
Example mirror_notebook_binary64 :
  forallb (fun pq => same_state (fst pq) (snd pq))
    (combine
       (orbit (Z.to_nat (cfg_ntot notebook_config)) (cfg_deltat notebook_config)
              (cfg_params notebook_config)
              (mirror_binary64 (init_state notebook_config)))
       (map mirror_binary64 (notebook_orbit (cfg_inity notebook_config))))
  = true.
Proof. vm_compute. reflexivity. Qed.

(** ** Concrete runs *)

(** C2 fails as stated: at the state (0, 1, 0) with parameters
    (10, 28, 8/3) the field is (10, -1, 0), not (10, 0, 0). *)
Lemma systemLorenz1963_at_0_1_0 :
  systemLorenz1963 0%R 1%R 0%R (10, 28, 8 / 3)%R = (10, -1, 0)%R /\
  systemLorenz1963 0%R 1%R 0%R (10, 28, 8 / 3)%R <> (10, 0, 0)%R /\
  systemLorenz1963 0%float 1%float 0%float (10, 28, 8 / 3)%float = (10, -1, 0)%float /\
  (-1 =? 0)%float = false.
Proof.
  assert (E : systemLorenz1963 0%R 1%R 0%R (10, 28, 8 / 3)%R = (10, -1, 0)%R).
  { unfold systemLorenz1963. cbn [add sub mul div of_int R_Num].
    apply triple_eq; field. }
  split; [exact E|]. split.
  - rewrite E. intros Heq. injection Heq as Heq. lra.
  - split; vm_compute; reflexivity.
Qed.

(** C7 fails as stated: from the finite state (1e200, 1e200, 0) the product
    [x*y] overflows, and [rk4_xyz] with step 0 returns not-a-number in every
    component. *)
Lemma rk4_zero_step_overflow :
  rk4_xyz 1e200%float 1e200%float 0%float 0%float systemLorenz1963
          (10, 28, 8 / 3)%float
  = (nan, nan, nan) /\
  is_zero nan = false /\
  is_finite 1e200%float = true.
Proof. repeat split; vm_compute; reflexivity. Qed.

(** C5 fails as stated: with the negative step -0.01 and three steps no cell
    raises, and the run produces a trajectory (backwards in time). *)
Lemma negative_step_accepted :
  (cfg_deltat (with_deltat_ntot notebook_config (-0.01)%float 3) <=? 0)%float = true /\
  result (run_all arange_checked
            (with_deltat_ntot notebook_config (-0.01)%float 3) blank_store)
  = Ok ([0; -0.010618196247791095; -0.022774736859343708]%float,
        [0.10000000000000001; 0.10246571823467485; 0.10814912248849164]%float,
        [0; 5.319630624220929e-06; 2.3103326110309454e-05]%float,
        []).
Proof. split; vm_compute; reflexivity. Qed.

Lemma trajectory_invariant_witness :
  exists s',
    simulate arange_returning (with_inity_ntot notebook_config 0.1%float 3) blank_store
    = Ok s' /\
    Z.of_nat (length (xvalues s')) = 3%Z /\
    entry s' 0 = Some (0, 0.1, 0)%float.
Proof.
  destruct (trajectory_invariant arange_returning
              (with_inity_ntot notebook_config 0.1%float 3) blank_store)
    as (s' & Hrun & (Hx & _) & H0 & _).
  - exists []. reflexivity.
  - cbn. lia.
  - exists s'. split; [exact Hrun|]. split; [exact Hx | exact H0].
Defined.

Lemma single_entry_run_witness :
  exists s',
    run_all arange_returning (with_inity_ntot notebook_config 0.1%float 1) blank_store
    = Ok s' /\
    xvalues s' = [0%float] /\ yvalues s' = [0.1%float] /\ zvalues s' = [0%float] /\
    relMaxZ s' = [].
Proof.
  apply (single_entry_run arange_returning
           (with_inity_ntot notebook_config 0.1%float 1) blank_store).
  - exists []. reflexivity.
  - reflexivity.
Defined.

Lemma mirror_symmetry_real_instance :
  exists s' m',
    simulate arange_returning (real_config 2) blank_store = Ok s' /\
    simulate arange_returning (mirror_config (real_config 2)) blank_store = Ok m' /\
    exists x y z,
      entry s' 1 = Some (x, y, z) /\ entry m' 1 = Some (- x, - y, z)%R.
Proof.
  destruct mirror_symmetry as (_ & _ & Hrun).
  destruct (Hrun arange_returning (real_config 2) blank_store blank_store)
    as (s' & m' & H1 & H2 & Hi).
  - exists []. reflexivity.
  - cbn. lia.
  - exists s', m'. split; [exact H1|]. split; [exact H2|].
    apply Hi. cbn. lia.
Defined.

(** * Further properties of the notebook *)

(** ** The return map of the plotting cell *)

Lemma slice_all_but_last {A : Type} (l : list A) :
  slice l (Some 0%Z) (Some (-1)%Z) = firstn (length l - 1) l.
Proof.
  unfold slice, slice_bound. cbn [Z.ltb Z.compare].
  destruct l as [|a l]; [reflexivity|].
  f_equal. cbn [length]. lia.
Qed.

Lemma slice_all_but_first {A : Type} (l : list A) :
  slice l (Some 1%Z) None = skipn 1 l.
Proof.
  unfold slice, slice_bound. cbn [Z.ltb Z.compare].
  destruct l as [|a l]; [reflexivity|].
  replace (Z.to_nat (Z.max 0 (Z.min (Z.of_nat (length (a :: l))) 1))) with 1%nat
    by (cbn [length]; lia).
  cbn [skipn]. apply firstn_all2. cbn [length]. lia.
Qed.

(** X1.  The lists [relMaxZ[0:-1]] and [relMaxZ[1:]] handed to the third
    scatter plot always have the same length, one less than [relMaxZ] (and
    zero for an empty [relMaxZ]: no error), and their entries at a same
    position [k] are the consecutive maxima [relMaxZ[k]] and
    [relMaxZ[k+1]]. *)
Theorem return_map_pairs {A : Type} (l : list A) :
  length (slice l (Some 0%Z) (Some (-1)%Z)) = (length l - 1)%nat /\
  length (slice l (Some 1%Z) None) = (length l - 1)%nat /\
  forall k : nat, (k + 1 < length l)%nat ->
    nth_error (slice l (Some 0%Z) (Some (-1)%Z)) k = nth_error l k /\
    nth_error (slice l (Some 1%Z) None) k = nth_error l (k + 1).
Proof.
  rewrite slice_all_but_last, slice_all_but_first.
  split; [|split].
  - rewrite length_firstn. lia.
  - rewrite length_skipn. reflexivity.
  - intros k Hk. split.
    + rewrite nth_error_firstn.
      destruct (Nat.ltb_spec k (length l - 1)); [reflexivity | lia].
    + rewrite nth_error_skipn. f_equal. lia.
Qed.

(** ** The loop cell run on its own *)

Section LoopCellAlone.
Context {T : Type} `{Num T}.
Local Open Scope num_scope.

Lemma for_each_app (l1 l2 : list nat) (body : nat -> Store T -> exc (Store T))
    (s : Store T) :
  for_each (l1 ++ l2) body s = (s' <- for_each l1 body s ;; for_each l2 body s').
Proof.
  revert s. induction l1 as [|i l1 IH]; intros s; cbn [app for_each bind].
  - reflexivity.
  - destruct (body i s) as [s1|e]; cbn [bind]; [apply IH | reflexivity].
Qed.

Lemma entry_cons (s : Store T) (st : State) (xt yt zt : list T) :
  xvalues s = px st :: xt -> yvalues s = py st :: yt -> zvalues s = pz st :: zt ->
  entry s 0 = Some st.
Proof.
  intros Hx Hy Hz. unfold entry. rewrite Hx, Hy, Hz.
  destruct st as [[x y] z]. reflexivity.
Qed.

Lemma entry_after (s : Store T) (o : list State) (xt yt zt : list T) (i : nat) :
  xvalues s = map px o ++ xt -> yvalues s = map py o ++ yt ->
  zvalues s = map pz o ++ zt -> (length o <= i)%nat ->
  entry s i
  = match nth_error xt (i - length o), nth_error yt (i - length o),
          nth_error zt (i - length o) with
    | Some x, Some y, Some z => Some (x, y, z)
    | _, _, _ => None
    end.
Proof.
  intros Hx Hy Hz Hi. unfold entry. rewrite Hx, Hy, Hz.
  rewrite !nth_error_app2 by (rewrite length_map; exact Hi).
  rewrite !length_map. reflexivity.
Qed.

(** The loop cell on a store whose arrays start with the state [st] and
    have room for [ntot] entries. *)
Lemma cell_loop_orbit (s : Store T) (st : State) (xt yt zt : list T) :
  xvalues s = px st :: xt -> yvalues s = py st :: yt -> zvalues s = pz st :: zt ->
  (Z.to_nat (ntot s - 1) <= length xt)%nat ->
  (Z.to_nat (ntot s - 1) <= length yt)%nat ->
  (Z.to_nat (ntot s - 1) <= length zt)%nat ->
  exists s',
    cell_loop s = Ok s' /\
    same_config s s' /\
    let n := Z.to_nat (ntot s - 1) in
    let o := orbit (S n) (deltat s) (store_params s) st in
    xvalues s' = map px o ++ skipn n xt /\
    yvalues s' = map py o ++ skipn n yt /\
    zvalues s' = map pz o ++ skipn n zt.
Proof.
  intros Hx Hy Hz Lx Ly Lz. unfold cell_loop, range.
  exact (for_each_orbit (Z.to_nat (ntot s - 1)) s [] st xt yt zt Hx Hy Hz Lx Ly Lz).
Qed.

(** X2.  The loop cell run on arrays that are longer than [ntot] (left by
    an earlier run with more steps) raises nothing: it keeps the length of
    the arrays, recomputes the entries below [ntot] as the orbit of entry 0
    and leaves every entry from index [ntot] on as it was. *)
Theorem loop_cell_keeps_tail (s : Store T) :
  (1 <= ntot s)%Z ->
  (ntot s <= Z.of_nat (length (xvalues s)))%Z ->
  (ntot s <= Z.of_nat (length (yvalues s)))%Z ->
  (ntot s <= Z.of_nat (length (zvalues s)))%Z ->
  exists s' st,
    cell_loop s = Ok s' /\
    entry s 0 = Some st /\
    length (xvalues s') = length (xvalues s) /\
    length (yvalues s') = length (yvalues s) /\
    length (zvalues s') = length (zvalues s) /\
    (forall i : nat, (Z.of_nat i < ntot s)%Z ->
       entry s' i
       = nth_error (orbit (Z.to_nat (ntot s)) (deltat s) (store_params s) st) i) /\
    (forall i : nat, (ntot s <= Z.of_nat i)%Z -> entry s' i = entry s i).
Proof.
  intros HN Lx Ly Lz.
  destruct (xvalues s) as [|x xt] eqn:Hx; [cbn in Lx; lia|].
  destruct (yvalues s) as [|y yt] eqn:Hy; [cbn in Ly; lia|].
  destruct (zvalues s) as [|z zt] eqn:Hz; [cbn in Lz; lia|].
  cbn [length] in Lx, Ly, Lz.
  destruct (cell_loop_orbit s (x, y, z) xt yt zt Hx Hy Hz)
    as (s' & Hrun & _ & Hx' & Hy' & Hz'); try lia.
  set (n := Z.to_nat (ntot s - 1)) in *.
  replace (Z.to_nat (ntot s)) with (S n) by lia.
  set (o := orbit (S n) (deltat s) (store_params s) (x, y, z)) in *.
  assert (Ho : length o = S n) by apply orbit_length.
  exists s', (x, y, z). split; [exact Hrun|].
  split; [exact (entry_cons s (x, y, z) xt yt zt Hx Hy Hz)|].
  split; [|split; [|split; [|split]]].
  - rewrite Hx', length_app, length_map, length_skipn, Ho. cbn [length]. lia.
  - rewrite Hy', length_app, length_map, length_skipn, Ho. cbn [length]. lia.
  - rewrite Hz', length_app, length_map, length_skipn, Ho. cbn [length]. lia.
  - intros i Hi. apply (entry_orbit_app s' o _ _ _ i Hx' Hy' Hz'). lia.
  - intros i Hi.
    rewrite (entry_after s' o _ _ _ i Hx' Hy' Hz') by lia.
    rewrite Ho. unfold entry. rewrite Hx, Hy, Hz.
    rewrite !nth_error_skipn.
    replace (n + (i - S n))%nat with (i - 1)%nat by lia.
    destruct i as [|i]; [lia|]. cbn [nth_error].
    replace (S i - 1)%nat with i by lia. reflexivity.
Qed.

(** One iteration at the last entry of [xvalues]: the write to entry
    [ii+1] is outside the array. *)
Lemma loop_body_no_room (s : Store T) (pre : list State) (cur : State)
    (yt zt : list T) :
  xvalues s = map px pre ++ [px cur] ->
  yvalues s = map py pre ++ py cur :: yt ->
  zvalues s = map pz pre ++ pz cur :: zt ->
  loop_body (length pre) s = Raise IndexError.
Proof.
  intros Hx Hy Hz. destruct cur as [[x y] z].
  unfold loop_body. cbn [px py pz fst snd] in *.
  cbn [assign_ii xvalues yvalues zvalues ii deltat sigma smallr smallb].
  rewrite Hx, Hy, Hz, !getitem_map_at. cbn [bind].
  destruct (rk4_xyz x y z (deltat s) systemLorenz1963 (sigma s, smallr s, smallb s))
    as [[sx sy] sz].
  cbn [assign_step assign_ii assign_xvalues assign_yvalues assign_zvalues
       xvalues yvalues zvalues ii stepx stepy stepz
       deltat ntot sigma smallr smallb].
  rewrite Hx, getitem_map_at. cbn [bind].
  unfold setitem.
  assert (Hlen : (length pre + 1 <? length (map px pre ++ [x]))%nat = false).
  { apply Nat.ltb_ge. rewrite length_app, length_map. cbn [length]. lia. }
  rewrite Hlen. reflexivity.
Qed.

(** X3.  The loop cell run on arrays that are shorter than [ntot] (left by
    an earlier run with fewer steps) ends in an [IndexError]. *)
Theorem loop_cell_short_arrays (s : Store T) (len : nat) :
  length (xvalues s) = len -> length (yvalues s) = len -> length (zvalues s) = len ->
  (Z.of_nat len < ntot s)%Z -> (2 <= ntot s)%Z ->
  cell_loop s = Raise IndexError.
Proof.
  intros Lx Ly Lz Hlen HN. unfold cell_loop, range.
  destruct (xvalues s) as [|x xt] eqn:Hx.
  { replace (Z.to_nat (ntot s - 1)) with (S (Z.to_nat (ntot s - 2))) by lia.
    cbn [seq for_each]. unfold loop_body.
    cbn [assign_ii xvalues ii]. rewrite Hx. reflexivity. }
  destruct (yvalues s) as [|y yt] eqn:Hy; [cbn in Ly; cbn in Lx; lia|].
  destruct (zvalues s) as [|z zt] eqn:Hz; [cbn in Lz; cbn in Lx; lia|].
  cbn [length] in Lx, Ly, Lz.
  replace (Z.to_nat (ntot s - 1)) with ((len - 1) + S (Z.to_nat (ntot s - 1) - len))%nat
    by lia.
  rewrite seq_app, for_each_app.
  destruct (for_each_orbit (len - 1) s [] (x, y, z) xt yt zt Hx Hy Hz)
    as (s1 & Hrun & _ & Hx1 & Hy1 & Hz1); try lia.
  cbn [length] in Hrun. rewrite Hrun. cbn [bind seq for_each Nat.add].
  assert (E : forall l : list T, length l = (len - 1)%nat -> skipn (len - 1) l = []).
  { intros l Hl. apply skipn_all2. lia. }
  rewrite (E xt) in Hx1 by lia. rewrite (E yt) in Hy1 by lia.
  rewrite (E zt) in Hz1 by lia.
  cbn [app] in Hx1, Hy1, Hz1. rewrite app_nil_r in Hx1, Hy1, Hz1.
  set (o := orbit (S (len - 1)) (deltat s) (store_params s) (x, y, z)) in *.
  assert (Ho : length o = S (len - 1)) by apply orbit_length.
  destruct (exists_last (l := o)) as (pre & cur & Eo).
  { intros Hnil. rewrite Hnil in Ho. discriminate. }
  assert (Hpre : length pre = (len - 1)%nat).
  { rewrite Eo, length_app in Ho. cbn [length] in Ho. lia. }
  rewrite Eo, map_app in Hx1, Hy1, Hz1. cbn [map] in Hx1, Hy1, Hz1.
  rewrite <- Hpre.
  rewrite (loop_body_no_room s1 pre cur [] [] Hx1 Hy1 Hz1). reflexivity.
Qed.

Lemma simulate_store (np_arange : T -> T -> T -> exc (list T))
    (c : Config T) (s : Store T) :
  arange_returns np_arange c -> (1 <= cfg_ntot c)%Z ->
  exists s',
    simulate np_arange c s = Ok s' /\
    deltat s' = cfg_deltat c /\ ntot s' = cfg_ntot c /\
    store_params s' = cfg_params c /\
    let o := orbit (Z.to_nat (cfg_ntot c)) (cfg_deltat c) (cfg_params c) (init_state c) in
    xvalues s' = map px o /\ yvalues s' = map py o /\ zvalues s' = map pz o.
Proof.
  intros Ha HN.
  destruct (configure_ok np_arange c s Ha HN) as (s0 & Hc & Hdt & Hnt & Hpar & Hx & Hy & Hz).
  unfold simulate. rewrite Hc. cbn [bind].
  destruct (cell_loop_orbit s0 (init_state c) _ _ _ Hx Hy Hz)
    as (s' & Hrun & (Hdt' & Hnt' & Hpar') & Hx' & Hy' & Hz');
    try (rewrite repeat_length, Hnt; lia).
  exists s'. split; [exact Hrun|].
  split; [congruence|]. split; [congruence|]. split; [congruence|].
  rewrite Hnt, Hdt, Hpar in Hx', Hy', Hz'.
  rewrite skipn_repeat, Nat.sub_diag in Hx', Hy', Hz'.
  cbn [repeat] in Hx', Hy', Hz'. rewrite app_nil_r in Hx', Hy', Hz'.
  replace (S (Z.to_nat (cfg_ntot c - 1))) with (Z.to_nat (cfg_ntot c)) in Hx', Hy', Hz'
    by lia.
  auto.
Qed.

(** X4.  Running the loop cell a second time, on the store a completed run
    left, changes none of the three arrays. *)
Theorem loop_cell_idempotent (np_arange : T -> T -> T -> exc (list T))
    (c : Config T) (s : Store T) :
  arange_returns np_arange c -> (1 <= cfg_ntot c)%Z ->
  exists s' s'',
    simulate np_arange c s = Ok s' /\
    cell_loop s' = Ok s'' /\
    xvalues s'' = xvalues s' /\ yvalues s'' = yvalues s' /\ zvalues s'' = zvalues s'.
Proof.
  intros Ha HN.
  destruct (simulate_store np_arange c s Ha HN)
    as (s' & Hrun & Hdt & Hnt & Hpar & Hx & Hy & Hz).
  set (n := Z.to_nat (cfg_ntot c - 1)).
  replace (Z.to_nat (cfg_ntot c)) with (S n) in Hx, Hy, Hz by (unfold n; lia).
  cbn [orbit map] in Hx, Hy, Hz.
  destruct (cell_loop_orbit s' (init_state c) _ _ _ Hx Hy Hz)
    as (s'' & Hrun' & _ & Hx' & Hy' & Hz');
    try (rewrite length_map, orbit_length, Hnt; fold n; lia).
  exists s', s''. split; [exact Hrun|]. split; [exact Hrun'|].
  rewrite Hnt, Hdt, Hpar in Hx', Hy', Hz'. fold n in Hx', Hy', Hz'.
  assert (E : forall (f : T * T * T -> T) (o : list (T * T * T)), length o = n ->
            skipn n (map f o) = []).
  { intros f o Ho. apply skipn_all2. rewrite length_map. lia. }
  rewrite E in Hx', Hy', Hz' by apply orbit_length.
  rewrite app_nil_r in Hx', Hy', Hz'.
  rewrite Hx, Hy, Hz, Hx', Hy', Hz'. cbn [orbit map]. auto.
Qed.

End LoopCellAlone.

(** ** Runs of different lengths and starts *)

Section RunsCompose.
Context {T : Type} `{Num T}.
Local Open Scope num_scope.
Variable np_arange : T -> T -> T -> exc (list T).

Lemma orbit_firstn (k n : nat) (h : T) (p : Params) (st : State) :
  (k <= n)%nat -> firstn k (orbit n h p st) = orbit k h p st.
Proof.
  revert n st. induction k as [|k IH]; intros n st Hk; [reflexivity|].
  destruct n as [|n]; [lia|]. cbn [orbit firstn].
  rewrite IH by lia. reflexivity.
Qed.

Lemma orbit_skipn (k n : nat) (h : T) (p : Params) (st a : State) :
  nth_error (orbit n h p st) k = Some a ->
  skipn k (orbit n h p st) = orbit (n - k) h p a.
Proof.
  revert n st. induction k as [|k IH]; intros n st Hk.
  - destruct n as [|n]; [discriminate|]. cbn in Hk. injection Hk as <-.
    rewrite Nat.sub_0_r. reflexivity.
  - destruct n as [|n]; [discriminate|]. cbn [orbit skipn nth_error] in *.
    rewrite (IH n _ Hk). reflexivity.
Qed.

(** X5.  A run with fewer steps produces a prefix of the run with more
    steps: for [1 <= k <= ntot], the arrays of the run of length [k] are the
    first [k] entries of the arrays of the run of length [ntot]. *)
Theorem shorter_run_is_prefix (c : Config T) (s : Store T) (k : Z) :
  arange_returns np_arange c -> arange_returns np_arange (set_ntot c k) ->
  (1 <= k)%Z -> (k <= cfg_ntot c)%Z ->
  exists s' sk,
    simulate np_arange c s = Ok s' /\
    simulate np_arange (set_ntot c k) s = Ok sk /\
    xvalues sk = firstn (Z.to_nat k) (xvalues s') /\
    yvalues sk = firstn (Z.to_nat k) (yvalues s') /\
    zvalues sk = firstn (Z.to_nat k) (zvalues s').
Proof.
  intros Ha Hak Hk HN.
  destruct (simulate_orbit np_arange c s Ha) as (s' & Hrun & _ & Hx & Hy & Hz); [lia|].
  destruct (simulate_orbit np_arange (set_ntot c k) s Hak Hk)
    as (sk & Hrunk & _ & Hxk & Hyk & Hzk).
  exists s', sk. split; [exact Hrun|]. split; [exact Hrunk|].
  rewrite Hx, Hy, Hz, Hxk, Hyk, Hzk. cbn [set_ntot cfg_ntot cfg_deltat].
  change (cfg_params (set_ntot c k)) with (cfg_params c).
  change (init_state (set_ntot c k)) with (init_state c).
  rewrite !firstn_map, orbit_firstn by lia. auto.
Qed.

(** X6.  A run can be restarted from any of its entries: the run that
    starts from entry [k] of a run of length [ntot], with [ntot - k] steps,
    produces the entries [k], [k+1], ... of that run. *)
Theorem run_restarts (c : Config T) (s : Store T) (k : nat) :
  arange_returns np_arange c ->
  arange_returns np_arange (set_ntot c (cfg_ntot c - Z.of_nat k)) ->
  (Z.of_nat k < cfg_ntot c)%Z ->
  exists s' st sk,
    simulate np_arange c s = Ok s' /\
    entry s' k = Some st /\
    simulate np_arange (set_ntot (set_init c st) (cfg_ntot c - Z.of_nat k)) s = Ok sk /\
    xvalues sk = skipn k (xvalues s') /\
    yvalues sk = skipn k (yvalues s') /\
    zvalues sk = skipn k (zvalues s').
Proof.
  intros Ha Hak Hk.
  destruct (simulate_orbit np_arange c s Ha) as (s' & Hrun & _ & Hx & Hy & Hz); [lia|].
  destruct (orbit_nth_some (Z.to_nat (cfg_ntot c)) k (cfg_deltat c) (cfg_params c)
              (init_state c)) as [st Hst]; [lia|].
  destruct (simulate_orbit np_arange
              (set_ntot (set_init c st) (cfg_ntot c - Z.of_nat k)) s Hak)
    as (sk & Hrunk & _ & Hxk & Hyk & Hzk); [cbn; lia|].
  exists s', st, sk. split; [exact Hrun|].
  split; [rewrite (entry_orbit s' _ k Hx Hy Hz); exact Hst|].
  split; [exact Hrunk|].
  rewrite Hx, Hy, Hz, Hxk, Hyk, Hzk. cbn [set_ntot cfg_ntot cfg_deltat set_init].
  change (cfg_params (set_ntot (set_init c st) (cfg_ntot c - Z.of_nat k)))
    with (cfg_params c).
  replace (init_state (set_ntot (set_init c st) (cfg_ntot c - Z.of_nat k))) with st
    by (destruct st as [[x y] z]; reflexivity).
  rewrite !skipn_map, (orbit_skipn _ _ _ _ _ _ Hst).
  replace (Z.to_nat (cfg_ntot c - Z.of_nat k)) with (Z.to_nat (cfg_ntot c) - k)%nat by lia.
  auto.
Qed.

(** X7.  While the loop runs, the part of the arrays it has not reached is
    still as [np.zeros] made it: after [k] iterations every entry [i] with
    [k < i <= ntot-1] is (0.0, 0.0, 0.0). *)
Theorem unvisited_entries_zero (c : Config T) (s : Store T) (k i : nat) :
  arange_returns np_arange c ->
  (k < i)%nat -> (Z.of_nat i <= cfg_ntot c - 1)%Z ->
  exists sk,
    simulate_upto np_arange k c s = Ok sk /\ entry sk i = Some (#0, #0, #0).
Proof.
  intros Ha Hki Hi.
  destruct (simulate_upto_orbit np_arange k c s Ha) as (sk & Hrun & _ & Hx & Hy & Hz);
    try lia.
  exists sk. split; [exact Hrun|].
  rewrite (entry_after sk _ _ _ _ i Hx Hy Hz) by (rewrite orbit_length; lia).
  rewrite orbit_length.
  rewrite (nth_error_repeat #0) by lia. reflexivity.
Qed.

End RunsCompose.

(** ** The maxima cell run on its own *)

Section MaximaCellAlone.
Context {T : Type} `{Num T}.
Local Open Scope num_scope.

Lemma comprehension_app (zs : list T) (l1 l2 : list nat) :
  comprehension zs (l1 ++ l2)
  = (a <- comprehension zs l1 ;; b <- comprehension zs l2 ;; Ok (a ++ b)).
Proof.
  induction l1 as [|i l1 IH]; cbn [app comprehension bind].
  - destruct (comprehension zs l2); reflexivity.
  - rewrite IH.
    destruct (is_rel_max zs i) as [[|]|e]; cbn [bind]; try reflexivity.
    destruct (getitem zs i) as [v|e]; cbn [bind]; [|reflexivity].
    destruct (comprehension zs l1) as [a|e]; cbn [bind]; [|reflexivity].
    destruct (comprehension zs l2) as [b|e]; reflexivity.
Qed.

Lemma comprehension_cons (zs : list T) (i : nat) (l : list nat) :
  comprehension zs (i :: l)
  = (c <- is_rel_max zs i ;;
     if c then v <- getitem zs i ;; rest <- comprehension zs l ;; Ok (v :: rest)
     else comprehension zs l).
Proof. reflexivity. Qed.

Lemma getitem_outside (zs : list T) (i : nat) :
  (length zs <= i)%nat -> getitem zs i = Raise IndexError.
Proof.
  intros Hi. unfold getitem.
  destruct (nth_error zs i) eqn:E; [|reflexivity].
  assert (nth_error zs i <> None) by congruence.
  apply nth_error_Some in H0. lia.
Qed.

Lemma comprehension_outside (zs : list T) (i : nat) (l : list nat) :
  (length zs <= i)%nat -> comprehension zs (i :: l) = Raise IndexError.
Proof.
  intros Hi. cbn [comprehension]. unfold is_rel_max.
  rewrite (getitem_outside zs i Hi). reflexivity.
Qed.

(** X8.  The maxima cell run with [ntot] smaller than the length of
    [zvalues] raises nothing and returns the maxima of the first [ntot]
    entries. *)
Theorem rel_maxima_of_prefix (zs : list T) (n : Z) :
  (n <= Z.of_nat (length zs))%Z ->
  exists l,
    rel_maxima zs n = Ok l /\
    rel_maxima (firstn (Z.to_nat n) zs) n = Ok l.
Proof.
  intros Hn.
  set (idx := range_from 1 (n - 1)).
  assert (Hidx : forall i, In i idx -> (1 <= i)%nat /\ (Z.of_nat i + 1 < n)%Z).
  { intros i Hi. unfold idx, range_from in Hi. apply in_seq in Hi. lia. }
  exists (map (fun i => nth i zs #0) (filter (strict_max zs) idx)).
  unfold rel_maxima. fold idx. split.
  - apply comprehension_spec, Forall_forall. intros i Hi. apply Hidx in Hi. lia.
  - rewrite comprehension_spec.
    + assert (Hnth : forall i, (Z.of_nat i < n)%Z ->
                nth i (firstn (Z.to_nat n) zs) #0 = nth i zs #0).
      { intros i Hi. rewrite nth_firstn.
        destruct (Nat.ltb_spec i (Z.to_nat n)); [reflexivity | lia]. }
      f_equal. rewrite (filter_ext_in (strict_max (firstn (Z.to_nat n) zs)) (strict_max zs)).
      * apply map_ext_in. intros i Hi. apply filter_In in Hi. destruct Hi as [Hi _].
        apply Hidx in Hi. apply Hnth. lia.
      * intros i Hi. apply Hidx in Hi. unfold strict_max.
        rewrite !Hnth by lia. reflexivity.
    + apply Forall_forall. intros i Hi. apply Hidx in Hi.
      rewrite length_firstn. lia.
Qed.

(** X9.  The maxima cell run with [ntot] larger than the length of
    [zvalues] by two or more ends in an [IndexError]. *)
Theorem rel_maxima_index_error (zs : list T) (n : Z) :
  (Z.of_nat (length zs) + 2 <= n)%Z -> (3 <= n)%Z ->
  rel_maxima zs n = Raise IndexError.
Proof.
  intros Hn H3. unfold rel_maxima, range_from.
  replace (Z.to_nat (n - 1 - Z.of_nat 1)) with
    ((length zs - 2) + S (Z.to_nat n - 2 - (length zs - 2) - 1))%nat by lia.
  rewrite seq_app, comprehension_app.
  rewrite comprehension_spec
    by (apply Forall_forall; intros i Hi; apply in_seq in Hi; lia).
  cbn [bind seq].
  destruct (Nat.le_gt_cases (length zs) (1 + (length zs - 2))) as [Hshort|Hlong].
  - rewrite comprehension_outside by exact Hshort. reflexivity.
  - assert (H2 : (2 <= length zs)%nat) by lia.
    replace (1 + (length zs - 2))%nat with (length zs - 1)%nat by lia.
    assert (Hrest : (Z.to_nat n - 2 - (length zs - 2) - 1 =
                     S (Z.to_nat n - 2 - (length zs - 2) - 2))%nat) by lia.
    rewrite Hrest. cbn [seq]. rewrite comprehension_cons. unfold is_rel_max.
    rewrite (getitem_nth zs (length zs - 1) #0) by lia. cbn [bind].
    rewrite (getitem_nth zs (length zs - 1 - 1) #0) by lia. cbn [bind].
    destruct (nth (length zs - 1) zs #0 >? nth (length zs - 1 - 1) zs #0).
    + rewrite (getitem_outside zs (length zs - 1 + 1)) by lia. reflexivity.
    + cbn [bind]. rewrite comprehension_outside by lia. reflexivity.
Qed.

(** X10.  With [ntot] one more than the length of [zvalues] the outcome of
    the maxima cell depends on the last two entries, because [and] reads
    its right operand only when its left operand holds: the cell ends in an
    [IndexError] when the last entry is greater than the one before it, and
    otherwise returns the maxima of the series. *)
Theorem rel_maxima_one_beyond (zs : list T) :
  (2 <= length zs)%nat ->
  rel_maxima zs (Z.of_nat (length zs) + 1)
  = if nth (length zs - 1) zs #0 >? nth (length zs - 2) zs #0
    then Raise IndexError
    else rel_maxima zs (Z.of_nat (length zs)).
Proof.
  intros Hlen. rewrite rel_maxima_spec. unfold rel_maxima, range_from, interior.
  replace (Z.to_nat (Z.of_nat (length zs) + 1 - 1 - Z.of_nat 1))
    with ((length zs - 2) + 1)%nat by lia.
  rewrite seq_app, comprehension_app.
  rewrite comprehension_spec
    by (apply Forall_forall; intros i Hi; apply in_seq in Hi; lia).
  cbn [bind seq comprehension]. unfold is_rel_max.
  replace (1 + (length zs - 2))%nat with (length zs - 1)%nat by lia.
  rewrite (getitem_nth zs (length zs - 1) #0) by lia. cbn [bind].
  replace (length zs - 1 - 1)%nat with (length zs - 2)%nat by lia.
  rewrite (getitem_nth zs (length zs - 2) #0) by lia. cbn [bind].
  destruct (nth (length zs - 1) zs #0 >? nth (length zs - 2) zs #0).
  - rewrite (getitem_outside zs (length zs - 1 + 1)) by lia. reflexivity.
  - cbn [bind]. rewrite app_nil_r. reflexivity.
Qed.

End MaximaCellAlone.

(** ** How many maxima there can be *)

Lemma filter_sparse (p : nat -> bool) :
  (forall i, p i = true -> p (S i) = false) ->
  forall n a, (2 * length (filter p (seq a n)) <= n + 1)%nat.
Proof.
  intros Hp n. induction n as [n IH] using lt_wf_ind. intros a.
  destruct n as [|[|n]].
  - cbn. lia.
  - cbn. destruct (p a); cbn; lia.
  - cbn [seq filter]. destruct (p a) eqn:Ea.
    + rewrite (Hp a Ea). cbn [length].
      specialize (IH n ltac:(lia) (S (S a))). lia.
    + specialize (IH (S n) ltac:(lia) (S a)). cbn [seq filter] in IH. lia.
Qed.

Section MaximaCount.
Context {T : Type} `{Num T}.
Local Open Scope num_scope.

Lemma strict_max_not_adjacent (zs : list T) (i : nat) :
  gtb_asymmetric -> strict_max zs i = true -> strict_max zs (S i) = false.
Proof.
  intros Hasym Hi. unfold strict_max in *.
  apply andb_true_iff in Hi. destruct Hi as [_ Hi].
  replace (S i - 1)%nat with i by lia.
  replace (i + 1)%nat with (S i) in Hi by lia.
  rewrite (Hasym _ _ Hi). reflexivity.
Qed.

Lemma rel_maxima_sparse (zs : list T) :
  gtb_asymmetric ->
  exists l,
    rel_maxima zs (Z.of_nat (length zs)) = Ok l /\
    (2 * length l <= length zs - 1)%nat.
Proof.
  intros Hasym. rewrite rel_maxima_spec. eexists. split; [reflexivity|].
  rewrite length_map. unfold interior.
  pose proof (filter_sparse (strict_max zs)
                (fun i => strict_max_not_adjacent zs i Hasym) (length zs - 2) 1) as Hs.
  destruct (length zs) as [|[|n]]; cbn in *; lia.
Qed.

End MaximaCount.

Lemma SFcompare_swap (x y : spec_float) :
  SFcompare y x = option_map CompOpp (SFcompare x y).
Proof.
  destruct x as [sx | sx | | sx mx ex], y as [sy | sy | | sy my ey];
    try reflexivity;
    try (destruct sx; reflexivity); try (destruct sy; reflexivity);
    try (destruct sx, sy; reflexivity).
  cbn [SFcompare option_map].
  rewrite (Z.compare_antisym ex ey).
  destruct sx, sy; try reflexivity; destruct (ex ?= ey)%Z; cbn [CompOpp]; try reflexivity.
  - rewrite (Pos.compare_cont_antisym mx my Eq). reflexivity.
  - rewrite (Pos.compare_cont_antisym mx my Eq). reflexivity.
Qed.

Lemma gtb_asymmetric_binary64 : @gtb_asymmetric float _.
Proof.
  intros a b. cbn [gtb float_Num]. rewrite !ltb_spec. unfold SFltb.
  rewrite (SFcompare_swap (Prim2SF b) (Prim2SF a)).
  destruct (SFcompare (Prim2SF b) (Prim2SF a)) as [[| |]|]; cbn; congruence.
Qed.

Lemma gtb_asymmetric_real : @gtb_asymmetric R _.
Proof.
  intros a b. cbn [gtb R_Num].
  destruct (Rgt_dec a b), (Rgt_dec b a); try reflexivity; try discriminate.
  lra.
Qed.

(** X11.  Two neighbouring entries are never both relative maxima, so a
    series of [N] entries has at most [(N-1)/2] of them, in binary64 and in
    real arithmetic. *)
Theorem rel_maxima_at_most_half :
  (forall V : list float,
     exists l, rel_maxima V (Z.of_nat (length V)) = Ok l /\
               (2 * length l <= length V - 1)%nat) /\
  (forall V : list R,
     exists l, rel_maxima V (Z.of_nat (length V)) = Ok l /\
               (2 * length l <= length V - 1)%nat).
Proof.
  split; intros V.
  - apply rel_maxima_sparse, gtb_asymmetric_binary64.
  - apply rel_maxima_sparse, gtb_asymmetric_real.
Qed.

(** ** The stepper on simple fields *)

Section SimpleFields.
Local Open Scope R_scope.

Ltac real_arith := cbn [add sub mul div of_int R_Num px py pz fst snd].

(** The product of [0.0] and a binary64 number. *)
Lemma zero_mul_binary64 (h : float) : zero_or_nan h (0 * h)%float = true.
Proof.
  unfold zero_or_nan, is_finite, is_nan, is_infinity, is_zero.
  rewrite !FloatAxioms.eqb_spec, abs_spec, mul_spec.
  change (Prim2SF 0%float) with (S754_zero false).
  change (Prim2SF infinity) with (S754_infinity false).
  destruct (Prim2SF h) as [s | s | | s m e].
  - destruct s; reflexivity.
  - destruct s; reflexivity.
  - reflexivity.
  - unfold SF64mul, SFmul, SFabs, SFeqb, SFcompare.
    rewrite Z.compare_refl, Pos.compare_cont_refl.
    destruct s; reflexivity.
Qed.

(** X12.  On a field that has the same value (a, b, c) everywhere the
    stepper returns exactly [h] times that value, in real arithmetic.  On
    the field that is zero everywhere it returns zero in binary64 too, for
    every finite step size (and not-a-number for an infinite one). *)
Theorem rk4_constant_field :
  (forall x y z h a b c : R,
     rk4_xyz x y z h constant_field (a, b, c) = (h * a, h * b, h * c)) /\
  (forall x y z h : float,
     let '(sx, sy, sz) := rk4_xyz x y z h constant_field (0, 0, 0)%float in
     zero_or_nan h sx = true /\ zero_or_nan h sy = true /\ zero_or_nan h sz = true).
Proof.
  split.
  - intros. unfold rk4_xyz, constant_field. real_arith. apply triple_eq; field.
  - intros x y z h. unfold rk4_xyz, constant_field.
    cbn [add sub mul div of_int float_Num].
    assert (E : (float_of_int 1 / float_of_int 6
                 * (0 + float_of_int 2 * 0 + float_of_int 2 * 0 + 0))%float = 0%float)
      by (vm_compute; reflexivity).
    rewrite E. repeat split; apply zero_mul_binary64.
Qed.

(** X13.  On the linear field [u' = a u] one step multiplies the state by
    [1 + h a + (h a)^2/2 + (h a)^3/6 + (h a)^4/24], the expansion of
    [exp (h a)] up to the fourth order: the increment is the state times
    that factor minus one (real arithmetic). *)
Theorem rk4_linear_field (x y z h a : R) :
  rk4_xyz x y z h linear_field a
  = (x * (rk4_growth a h - 1), y * (rk4_growth a h - 1), z * (rk4_growth a h - 1)).
Proof.
  unfold rk4_xyz, linear_field, rk4_growth. real_arith.
  apply triple_eq; field.
Qed.

(** At a zero of the field the stepper returns the zero increment. *)
Lemma rk4_xyz_at_zero (P : Type) (f : R -> R -> R -> P -> R * R * R)
    (x y z h : R) (p : P) :
  f x y z p = (0, 0, 0) -> rk4_xyz x y z h f p = (0, 0, 0).
Proof.
  intros Hf.
  assert (E2 : forall u, u + h * 0 / 2 = u) by (intros; field).
  assert (E1 : forall u, u + h * 0 = u) by (intros; ring).
  unfold rk4_xyz. real_arith.
  rewrite Hf. rewrite !E2, Hf. rewrite !E2, Hf. rewrite !E1, Hf.
  apply triple_eq; field.
Qed.

Lemma orbit_constant (n : nat) (h : R) (p : Params) (st : State) (i : nat) :
  advance h p st = st -> (i < n)%nat -> nth_error (orbit n h p st) i = Some st.
Proof.
  intros Hst. revert i. induction n as [|n IH]; intros i Hi; [lia|].
  cbn [orbit]. rewrite Hst. destruct i as [|i]; [reflexivity|].
  cbn [nth_error]. apply IH. lia.
Qed.

(** X14.  A run started at a state where the field vanishes stays there:
    every entry of the three arrays equals the initial state (real
    arithmetic). *)
Theorem run_from_equilibrium (np_arange : R -> R -> R -> exc (list R))
    (c : Config R) (s : Store R) :
  arange_returns np_arange c -> (1 <= cfg_ntot c)%Z ->
  systemLorenz1963 (cfg_initx c) (cfg_inity c) (cfg_initz c) (cfg_params c) = (0, 0, 0) ->
  exists s',
    simulate np_arange c s = Ok s' /\
    forall i : nat, (Z.of_nat i <= cfg_ntot c - 1)%Z -> entry s' i = Some (init_state c).
Proof.
  intros Ha HN Hf.
  destruct (simulate_orbit np_arange c s Ha HN) as (s' & Hrun & _ & Hx & Hy & Hz).
  exists s'. split; [exact Hrun|]. intros i Hi.
  rewrite (entry_orbit s' _ i Hx Hy Hz).
  apply orbit_constant; [|lia].
  unfold advance, init_state.
  rewrite (rk4_xyz_at_zero _ _ _ _ _ _ _ Hf). real_arith.
  apply triple_eq; ring.
Qed.

(** X15.  The zeros of the field, for [sigma] and [b] other than 0: the
    origin, and the states with [y = x], [z = r - 1] and [x^2 = b (r - 1)]
    (real arithmetic). *)
Theorem systemLorenz1963_zeros (x y z sg r b : R) :
  sg <> 0 -> b <> 0 ->
  (systemLorenz1963 x y z (sg, r, b) = (0, 0, 0) <->
   (x = 0 /\ y = 0 /\ z = 0) \/ (y = x /\ z = r - 1 /\ x * x = b * (r - 1))).
Proof.
  intros Hsg Hb. unfold systemLorenz1963. real_arith. split.
  - intros Hf. injection Hf as Hx Hy Hz.
    assert (Eyx : y = x).
    { apply (Rmult_eq_reg_l sg); [lra | exact Hsg]. }
    subst y.
    assert (Hprod : x * (r - 1 - z) = 0) by lra.
    apply Rmult_integral in Hprod. destruct Hprod as [Hx0 | Hz1].
    + left. subst x. split; [reflexivity|]. split; [reflexivity|].
      assert (Hbz : b * z = 0) by lra.
      apply Rmult_integral in Hbz. destruct Hbz; [contradiction | assumption].
    + right. split; [reflexivity|]. split; [lra|].
      replace (r - 1) with z by lra. lra.
  - intros [(-> & -> & ->) | (-> & -> & Hxx)].
    + apply triple_eq; ring.
    + apply triple_eq; [ring | ring | lra].
Qed.

End SimpleFields.

(** ** The vertical axis *)

Section VerticalAxis.
Local Open Scope R_scope.

Lemma advance_on_axis (h sg r b z : R) :
  advance h (sg, r, b) (0, 0, z) = (0, 0, z * rk4_growth (- b) h).
Proof.
  unfold advance, rk4_xyz, systemLorenz1963, rk4_growth.
  cbn [add sub mul div of_int R_Num].
  apply triple_eq; field.
Qed.

Lemma orbit_on_axis (n : nat) (h sg r b z : R) (i : nat) :
  (i < n)%nat ->
  nth_error (orbit n h (sg, r, b) (0, 0, z)) i
  = Some (0, 0, z * rk4_growth (- b) h ^ i).
Proof.
  revert z i. induction n as [|n IH]; intros z i Hi; [lia|].
  cbn [orbit]. destruct i as [|i]; cbn [nth_error].
  - f_equal. apply triple_eq; ring.
  - rewrite advance_on_axis, IH by lia.
    f_equal. apply triple_eq; try reflexivity. cbn [pow]. ring.
Qed.

(** X16.  A run started on the vertical axis ([X = Y = 0]) stays on it, and
    its [Z] is multiplied at each step by the factor of the linear field of
    rate [-b]: entry [i] is [(0, 0, z0 q^i)] with
    [q = 1 - h b + (h b)^2/2 - (h b)^3/6 + (h b)^4/24] (real arithmetic). *)
Theorem run_on_vertical_axis (np_arange : R -> R -> R -> exc (list R))
    (c : Config R) (s : Store R) :
  arange_returns np_arange c -> (1 <= cfg_ntot c)%Z ->
  cfg_initx c = 0 -> cfg_inity c = 0 ->
  exists s',
    simulate np_arange c s = Ok s' /\
    forall i : nat, (Z.of_nat i <= cfg_ntot c - 1)%Z ->
      entry s' i
      = Some (0, 0, cfg_initz c * rk4_growth (- cfg_smallb c) (cfg_deltat c) ^ i).
Proof.
  intros Ha HN Hx0 Hy0.
  destruct (simulate_orbit np_arange c s Ha HN) as (s' & Hrun & _ & Hx & Hy & Hz).
  exists s'. split; [exact Hrun|]. intros i Hi.
  rewrite (entry_orbit s' _ i Hx Hy Hz).
  unfold init_state, cfg_params. rewrite Hx0, Hy0.
  apply orbit_on_axis. lia.
Qed.

End VerticalAxis.

(** ** The data of the plots *)

(** X17.  After a completed run every call of [ax.scatter] receives two
    lists of the same length: [ntot] for the two phase plots, and one less
    than the number of maxima for the return map. *)
Theorem scatter_data_aligned {T : Type} `{Num T}
    (np_arange : T -> T -> T -> exc (list T)) (c : Config T) (s : Store T) :
  arange_returns np_arange c -> (1 <= cfg_ntot c)%Z ->
  exists s',
    run_all np_arange c s = Ok s' /\
    Forall (fun xy => length (fst xy) = length (snd xy)) (scatter_data s') /\
    Z.of_nat (length (yvalues s')) = cfg_ntot c.
Proof.
  intros Ha HN.
  destruct (run_all_orbit np_arange c s Ha HN) as (s' & Hrun & Hx & Hy & Hz & _).
  exists s'. split; [exact Hrun|].
  assert (Hlen : forall f : T * T * T -> T,
            length (map f (orbit (Z.to_nat (cfg_ntot c)) (cfg_deltat c) (cfg_params c)
                             (init_state c))) = Z.to_nat (cfg_ntot c)).
  { intros f. rewrite length_map. apply orbit_length. }
  split.
  - unfold scatter_data. repeat constructor; cbn [fst snd].
    + rewrite Hy, Hz, !Hlen. reflexivity.
    + rewrite Hy, Hx, !Hlen. reflexivity.
    + rewrite slice_all_but_last, slice_all_but_first, length_firstn, length_skipn. lia.
  - rewrite Hy, Hlen. lia.
Qed.

(** ** Concrete instances *)

Lemma loop_cell_keeps_tail_witness :
  exists s' st,
    cell_loop (stale_store 2) = Ok s' /\
    entry (stale_store 2) 0 = Some st /\
    length (xvalues s') = 3%nat /\
    entry s' 2 = Some (3, 3, 3)%float.
Proof.
  destruct (loop_cell_keeps_tail (stale_store 2))
    as (s' & st & Hrun & H0 & Hx & _ & _ & _ & Htail).
  - cbn. lia.
  - cbn. lia.
  - cbn. lia.
  - cbn. lia.
  - exists s', st. split; [exact Hrun|]. split; [exact H0|]. split; [exact Hx|].
    rewrite (Htail 2%nat); [reflexivity | cbn; lia].
Defined.

Lemma loop_cell_short_arrays_witness :
  cell_loop (stale_store 5) = Raise IndexError.
Proof.
  apply (loop_cell_short_arrays (stale_store 5) 3).
  - reflexivity.
  - reflexivity.
  - reflexivity.
  - cbn. lia.
  - cbn. lia.
Defined.

Lemma loop_cell_idempotent_witness :
  exists s' s'',
    simulate arange_returning (with_inity_ntot notebook_config 0.1%float 3) blank_store
    = Ok s' /\
    cell_loop s' = Ok s'' /\ xvalues s'' = xvalues s'.
Proof.
  destruct (loop_cell_idempotent arange_returning
              (with_inity_ntot notebook_config 0.1%float 3) blank_store)
    as (s' & s'' & H1 & H2 & Hx & _).
  - exists []. reflexivity.
  - cbn. lia.
  - exists s', s''. split; [exact H1|]. split; [exact H2 | exact Hx].
Defined.

Lemma shorter_run_is_prefix_witness :
  exists s' sk,
    simulate arange_returning (with_inity_ntot notebook_config 0.1%float 3) blank_store
    = Ok s' /\
    simulate arange_returning
      (set_ntot (with_inity_ntot notebook_config 0.1%float 3) 2) blank_store = Ok sk /\
    xvalues sk = firstn 2 (xvalues s').
Proof.
  destruct (shorter_run_is_prefix arange_returning
              (with_inity_ntot notebook_config 0.1%float 3) blank_store 2)
    as (s' & sk & H1 & H2 & Hx & _).
  - exists []. reflexivity.
  - exists []. reflexivity.
  - lia.
  - cbn. lia.
  - exists s', sk. split; [exact H1|]. split; [exact H2 | exact Hx].
Defined.

Lemma run_restarts_witness :
  exists s' st sk,
    simulate arange_returning (with_inity_ntot notebook_config 0.1%float 3) blank_store
    = Ok s' /\
    entry s' 1 = Some st /\
    simulate arange_returning
      (set_ntot (set_init (with_inity_ntot notebook_config 0.1%float 3) st) 2) blank_store
    = Ok sk /\
    xvalues sk = skipn 1 (xvalues s').
Proof.
  destruct (run_restarts arange_returning
              (with_inity_ntot notebook_config 0.1%float 3) blank_store 1)
    as (s' & st & sk & H1 & H2 & H3 & Hx & _).
  - exists []. reflexivity.
  - exists []. reflexivity.
  - cbn. lia.
  - exists s', st, sk. split; [exact H1|]. split; [exact H2|].
    split; [exact H3 | exact Hx].
Defined.

Lemma unvisited_entries_zero_witness :
  exists sk,
    simulate_upto arange_returning 0
      (with_inity_ntot notebook_config 0.1%float 3) blank_store = Ok sk /\
    entry sk 1 = Some (0, 0, 0)%float.
Proof.
  destruct (unvisited_entries_zero arange_returning
              (with_inity_ntot notebook_config 0.1%float 3) blank_store 0 1)
    as (sk & Hrun & Hz).
  - exists []. reflexivity.
  - lia.
  - cbn. lia.
  - exists sk. split; [exact Hrun | exact Hz].
Defined.

Lemma rel_maxima_of_prefix_witness :
  exists l,
    rel_maxima [1; 3; 2; 5; 4]%float 3 = Ok l /\
    rel_maxima (firstn 3 [1; 3; 2; 5; 4]%float) 3 = Ok l.
Proof.
  apply (rel_maxima_of_prefix [1; 3; 2; 5; 4]%float 3). cbn. lia.
Defined.

Lemma rel_maxima_index_error_witness :
  rel_maxima [1; 2]%float 4 = Raise IndexError.
Proof.
  apply (rel_maxima_index_error [1; 2]%float 4).
  - cbn. lia.
  - lia.
Defined.

Lemma rel_maxima_one_beyond_witness :
  rel_maxima [1; 2]%float 3 = Raise IndexError /\
  rel_maxima [2; 1]%float 3 = Ok [].
Proof.
  split.
  - rewrite (rel_maxima_one_beyond [1; 2]%float); [reflexivity | cbn; lia].
  - rewrite (rel_maxima_one_beyond [2; 1]%float); [reflexivity | cbn; lia].
Defined.

Lemma run_from_equilibrium_witness :
  exists s',
    simulate arange_returning (set_init (real_config 3) (0, 0, 0)%R) blank_store = Ok s' /\
    entry s' 2 = Some (0, 0, 0)%R.
Proof.
  destruct (run_from_equilibrium arange_returning
              (set_init (real_config 3) (0, 0, 0)%R) blank_store)
    as (s' & Hrun & Hi).
  - exists []. reflexivity.
  - cbn. lia.
  - unfold systemLorenz1963. cbn. f_equal; [f_equal|]; ring.
  - exists s'. split; [exact Hrun|]. apply (Hi 2%nat). cbn. lia.
Defined.

Lemma systemLorenz1963_zeros_witness :
  systemLorenz1963 0%R 0%R 0%R (10, 28, 8 / 3)%R = (0, 0, 0)%R <->
  (0 = 0 /\ 0 = 0 /\ 0 = 0)%R \/
  (0 = 0 /\ 0 = 28 - 1 /\ 0 * 0 = 8 / 3 * (28 - 1))%R.
Proof.
  apply (systemLorenz1963_zeros 0 0 0 10 28 (8 / 3))%R; lra.
Defined.

Lemma run_on_vertical_axis_witness :
  exists s',
    simulate arange_returning (set_init (real_config 3) (0, 0, 1)%R) blank_store = Ok s' /\
    entry s' 2 = Some (0, 0, 1 * rk4_growth (- (8 / 3)) 0.01 ^ 2)%R.
Proof.
  destruct (run_on_vertical_axis arange_returning
              (set_init (real_config 3) (0, 0, 1)%R) blank_store)
    as (s' & Hrun & Hi).
  - exists []. reflexivity.
  - cbn. lia.
  - reflexivity.
  - reflexivity.
  - exists s'. split; [exact Hrun|]. apply (Hi 2%nat). cbn. lia.
Defined.

Lemma scatter_data_aligned_witness :
  exists s',
    run_all arange_returning (with_inity_ntot notebook_config 0.1%float 3) blank_store
    = Ok s' /\
    Forall (fun xy => length (fst xy) = length (snd xy)) (scatter_data s').
Proof.
  destruct (scatter_data_aligned arange_returning
              (with_inity_ntot notebook_config 0.1%float 3) blank_store)
    as (s' & Hrun & Hall & _).
  - exists []. reflexivity.
  - cbn. lia.
  - exists s'. split; [exact Hrun | exact Hall].
Defined.

(** ** Binary64 arithmetic and the sign of its operands *)

Section SpecFloatSigns.
Variables prec emax : Z.

Lemma SFsim_refl (x : spec_float) : SFsim x x.
Proof. destruct x; cbn; auto. Qed.

Lemma SFsim_sym (x y : spec_float) : SFsim x y -> SFsim y x.
Proof. destruct x, y; cbn; auto; discriminate. Qed.

Lemma SFsim_trans (x y z : spec_float) : SFsim x y -> SFsim y z -> SFsim x z.
Proof.
  destruct x, y; cbn; intros Hxy; try discriminate Hxy;
    destruct z; cbn; intros Hyz; try discriminate Hyz; auto; congruence.
Qed.

Lemma SFsim_opp (x y : spec_float) : SFsim x y -> SFsim (SFopp x) (SFopp y).
Proof.
  destruct x, y; cbn; intros Hxy; try discriminate Hxy; auto;
    injection Hxy; intros; subst; reflexivity.
Qed.

Lemma SFopp_involutive (x : spec_float) : SFopp (SFopp x) = x.
Proof. destruct x; cbn; rewrite ?negb_involutive; reflexivity. Qed.

(** Rounding keeps the sign it is given. *)
Lemma binary_round_aux_opp (s : bool) (m e : Z) (l : location) :
  binary_round_aux prec emax (negb s) m e l
  = SFopp (binary_round_aux prec emax s m e l).
Proof.
  unfold binary_round_aux.
  destruct (shr_fexp prec emax m e l) as [mrs' e'].
  destruct (shr_fexp prec emax _ e' loc_Exact) as [mrs'' e''].
  destruct (shr_m mrs''); try reflexivity.
  destruct (e'' <=? emax - prec)%Z; reflexivity.
Qed.

Lemma binary_round_opp (s : bool) (m : positive) (e : Z) :
  binary_round prec emax (negb s) m e = SFopp (binary_round prec emax s m e).
Proof.
  unfold binary_round.
  destruct (shl_align m e _) as [mz ez]. apply binary_round_aux_opp.
Qed.

Lemma binary_normalize_opp (m e : Z) :
  SFsim (binary_normalize prec emax (- m) e false)
        (SFopp (binary_normalize prec emax m e false)).
Proof.
  destruct m as [|p|p]; cbn [Z.opp binary_normalize].
  - exact I.
  - rewrite <- (binary_round_opp false). apply SFsim_refl.
  - rewrite <- (binary_round_opp true). apply SFsim_refl.
Qed.

Ltac split_sim H :=
  match type of H with
  | SFsim ?x ?y =>
      destruct x, y; cbn [SFsim] in H; try discriminate H;
      try (injection H; intros; subst); clear H
  end.

Ltac close_sim :=
  cbn [SFsim SFopp SFadd SFsub SFmul SFdiv xorb negb];
  repeat match goal with
         | s : bool |- _ => destruct s
         end;
  cbn [SFsim SFopp SFadd SFsub SFmul SFdiv xorb negb];
  first [exact I | reflexivity | apply SFsim_refl].

Lemma SFadd_sim (x x' y y' : spec_float) :
  SFsim x x' -> SFsim y y' ->
  SFsim (SFadd prec emax x y) (SFadd prec emax x' y').
Proof. intros Hx Hy. split_sim Hx; split_sim Hy; close_sim. Qed.

Lemma SFsub_sim (x x' y y' : spec_float) :
  SFsim x x' -> SFsim y y' ->
  SFsim (SFsub prec emax x y) (SFsub prec emax x' y').
Proof. intros Hx Hy. split_sim Hx; split_sim Hy; close_sim. Qed.

Lemma SFmul_sim (x x' y y' : spec_float) :
  SFsim x x' -> SFsim y y' ->
  SFsim (SFmul prec emax x y) (SFmul prec emax x' y').
Proof. intros Hx Hy. split_sim Hx; split_sim Hy; close_sim. Qed.

(** Division by one and the same divisor. *)
Lemma SFdiv_sim (x x' y : spec_float) :
  SFsim x x' -> SFsim (SFdiv prec emax x y) (SFdiv prec emax x' y).
Proof. intros Hx. split_sim Hx; destruct y; close_sim. Qed.

Lemma cond_Zopp_negb (s : bool) (m : Z) : cond_Zopp (negb s) m = (- cond_Zopp s m)%Z.
Proof. destruct s; cbn [negb cond_Zopp]; lia. Qed.

Lemma SFadd_opp (x y : spec_float) :
  SFsim (SFadd prec emax (SFopp x) (SFopp y)) (SFopp (SFadd prec emax x y)).
Proof.
  destruct x as [sx | sx | | sx mx ex], y as [sy | sy | | sy my ey];
    try (cbn [SFopp SFadd]; destruct sx; try destruct sy; cbn; auto; fail);
    try (cbn [SFopp SFadd]; destruct sy; cbn; auto; fail);
    try (cbn; auto; fail).
  cbn [SFopp SFadd]. rewrite !cond_Zopp_negb, <- Z.opp_add_distr.
  apply binary_normalize_opp.
Qed.

Lemma SFsub_opp (x y : spec_float) :
  SFsim (SFsub prec emax (SFopp x) (SFopp y)) (SFopp (SFsub prec emax x y)).
Proof.
  destruct x as [sx | sx | | sx mx ex], y as [sy | sy | | sy my ey];
    try (cbn [SFopp SFsub]; destruct sx; try destruct sy; cbn; auto; fail);
    try (cbn [SFopp SFsub]; destruct sy; cbn; auto; fail);
    try (cbn; auto; fail).
  cbn [SFopp SFsub]. rewrite !cond_Zopp_negb.
  replace (- cond_Zopp sx (Z.pos (fst (shl_align mx ex (Z.min ex ey))))
           - - cond_Zopp sy (Z.pos (fst (shl_align my ey (Z.min ex ey)))))%Z
    with (- (cond_Zopp sx (Z.pos (fst (shl_align mx ex (Z.min ex ey))))
             - cond_Zopp sy (Z.pos (fst (shl_align my ey (Z.min ex ey))))))%Z by lia.
  apply binary_normalize_opp.
Qed.

Lemma SFmul_opp_l (x y : spec_float) :
  SFmul prec emax (SFopp x) y = SFopp (SFmul prec emax x y).
Proof.
  destruct x as [sx | sx | | sx mx ex], y as [sy | sy | | sy my ey];
    cbn [SFopp SFmul]; try reflexivity;
    try (destruct sx, sy; reflexivity).
  replace (xorb (negb sx) sy) with (negb (xorb sx sy)) by (destruct sx, sy; reflexivity).
  apply binary_round_aux_opp.
Qed.

Lemma SFmul_opp_r (x y : spec_float) :
  SFmul prec emax x (SFopp y) = SFopp (SFmul prec emax x y).
Proof.
  destruct x as [sx | sx | | sx mx ex], y as [sy | sy | | sy my ey];
    cbn [SFopp SFmul]; try reflexivity;
    try (destruct sx, sy; reflexivity).
  replace (xorb sx (negb sy)) with (negb (xorb sx sy)) by (destruct sx, sy; reflexivity).
  apply binary_round_aux_opp.
Qed.

Lemma SFdiv_opp_l (x y : spec_float) :
  SFdiv prec emax (SFopp x) y = SFopp (SFdiv prec emax x y).
Proof.
  destruct x as [sx | sx | | sx mx ex], y as [sy | sy | | sy my ey];
    cbn [SFopp SFdiv]; try reflexivity;
    try (destruct sx, sy; reflexivity).
  destruct (SFdiv_core_binary prec emax (Z.pos mx) ex (Z.pos my) ey) as [[mz ez] lz].
  replace (xorb (negb sx) sy) with (negb (xorb sx sy)) by (destruct sx, sy; reflexivity).
  apply binary_round_aux_opp.
Qed.

End SpecFloatSigns.

(** ** Relations kept by the field, the stepper and the loop *)

Section KeptRelations.
Context {T : Type} `{Num T}.
Local Open Scope num_scope.

(** [E] relates the values that have to be alike in two runs, [M] those
    that have to be opposite. *)
Variables E M : T -> T -> Prop.
Hypothesis E_refl : forall a, E a a.
Hypothesis add_E : forall a a' b b', E a a' -> E b b' -> E (a + b) (a' + b').
Hypothesis add_M : forall a a' b b', M a a' -> M b b' -> M (a + b) (a' + b').
Hypothesis sub_E : forall a a' b b', E a a' -> E b b' -> E (a - b) (a' - b').
Hypothesis sub_M : forall a a' b b', M a a' -> M b b' -> M (a - b) (a' - b').
Hypothesis mul_EE : forall a a' b b', E a a' -> E b b' -> E (a * b) (a' * b').
Hypothesis mul_EM : forall a a' b b', E a a' -> M b b' -> M (a * b) (a' * b').
Hypothesis mul_ME : forall a a' b b', M a a' -> E b b' -> M (a * b) (a' * b').
Hypothesis mul_MM : forall a a' b b', M a a' -> M b b' -> E (a * b) (a' * b').
Hypothesis div_E : forall a a' b, E a a' -> E (a / b) (a' / b).
Hypothesis div_M : forall a a' b, M a a' -> M (a / b) (a' / b).

Lemma systemLorenz1963_kept (p : Params) (x y z x' y' z' : T) :
  mirrored E M (x, y, z) (x', y', z') ->
  mirrored E M (systemLorenz1963 x y z p) (systemLorenz1963 x' y' z' p).
Proof.
  intros (Hx & Hy & Hz). cbn [px py pz fst snd] in *.
  destruct p as [[sg r] b]. unfold systemLorenz1963, mirrored.
  cbn [px py pz fst snd]. repeat split.
  - apply add_M; apply mul_EM; auto.
  - apply sub_M; [apply mul_EM; [apply sub_E|]|]; auto.
  - apply sub_E; [apply mul_MM | apply mul_EE]; auto.
Qed.

Lemma rk4_xyz_kept (P : Type) (f : T -> T -> T -> P -> T * T * T) (p : P) (h : T) :
  (forall x y z x' y' z',
     mirrored E M (x, y, z) (x', y', z') -> mirrored E M (f x y z p) (f x' y' z' p)) ->
  forall x y z x' y' z',
    mirrored E M (x, y, z) (x', y', z') ->
    mirrored E M (rk4_xyz x y z h f p) (rk4_xyz x' y' z' h f p).
Proof.
  intros Hf x y z x' y' z' Hxyz.
  pose proof Hxyz as (Hx & Hy & Hz). cbn [px py pz fst snd] in Hx, Hy, Hz.
  unfold rk4_xyz.
  pose proof (Hf _ _ _ _ _ _ Hxyz) as H1.
  destruct (f x y z p) as [[k1x k1y] k1z], (f x' y' z' p) as [[k1x' k1y'] k1z'].
  destruct H1 as (H1x & H1y & H1z). cbn [px py pz fst snd] in H1x, H1y, H1z.
  assert (H2 : mirrored E M
            (f (x + h * k1x / #2) (y + h * k1y / #2) (z + h * k1z / #2) p)
            (f (x' + h * k1x' / #2) (y' + h * k1y' / #2) (z' + h * k1z' / #2) p)).
  { apply Hf. repeat split; cbn [px py pz fst snd]; auto 6. }
  destruct (f (x + _) (y + _) (z + _) p) as [[k2x k2y] k2z],
           (f (x' + _) (y' + _) (z' + _) p) as [[k2x' k2y'] k2z'].
  destruct H2 as (H2x & H2y & H2z). cbn [px py pz fst snd] in H2x, H2y, H2z.
  assert (H3 : mirrored E M
            (f (x + h * k2x / #2) (y + h * k2y / #2) (z + h * k2z / #2) p)
            (f (x' + h * k2x' / #2) (y' + h * k2y' / #2) (z' + h * k2z' / #2) p)).
  { apply Hf. repeat split; cbn [px py pz fst snd]; auto 6. }
  destruct (f (x + _) (y + _) (z + _) p) as [[k3x k3y] k3z],
           (f (x' + _) (y' + _) (z' + _) p) as [[k3x' k3y'] k3z'].
  destruct H3 as (H3x & H3y & H3z). cbn [px py pz fst snd] in H3x, H3y, H3z.
  assert (H4 : mirrored E M
            (f (x + h * k3x) (y + h * k3y) (z + h * k3z) p)
            (f (x' + h * k3x') (y' + h * k3y') (z' + h * k3z') p)).
  { apply Hf. repeat split; cbn [px py pz fst snd]; auto 6. }
  destruct (f (x + _) (y + _) (z + _) p) as [[k4x k4y] k4z],
           (f (x' + _) (y' + _) (z' + _) p) as [[k4x' k4y'] k4z'].
  destruct H4 as (H4x & H4y & H4z). cbn [px py pz fst snd] in H4x, H4y, H4z.
  repeat split; cbn [px py pz fst snd].
  - apply mul_ME; [apply mul_EM|]; auto 8.
  - apply mul_ME; [apply mul_EM|]; auto 8.
  - apply mul_EE; [apply mul_EE|]; auto 8.
Qed.

Lemma advance_kept (h : T) (p : Params) (u v : State) :
  mirrored E M u v -> mirrored E M (advance h p u) (advance h p v).
Proof.
  destruct u as [[x y] z], v as [[x' y'] z']. intros Huv.
  pose proof (rk4_xyz_kept Params systemLorenz1963 p h
                (systemLorenz1963_kept p) _ _ _ _ _ _ Huv) as Hs.
  unfold advance.
  destruct (rk4_xyz x y z h systemLorenz1963 p) as [[sx sy] sz],
           (rk4_xyz x' y' z' h systemLorenz1963 p) as [[sx' sy'] sz'].
  destruct Huv as (Hx & Hy & Hz), Hs as (Hsx & Hsy & Hsz).
  cbn [px py pz fst snd] in *. repeat split; cbn [px py pz fst snd]; auto.
Qed.

Lemma orbit_kept (n : nat) (h : T) (p : Params) (u v : State) (i : nat) :
  mirrored E M u v -> (i < n)%nat ->
  exists a b,
    nth_error (orbit n h p u) i = Some a /\
    nth_error (orbit n h p v) i = Some b /\ mirrored E M a b.
Proof.
  revert u v i. induction n as [|n IH]; intros u v i Huv Hi; [lia|].
  destruct i as [|i]; cbn [orbit nth_error].
  - exists u, v. auto.
  - apply IH; [apply advance_kept, Huv | lia].
Qed.

End KeptRelations.

(** ** The mirror symmetry in binary64 *)

Lemma fsim_refl (a : float) : fsim a a.
Proof. apply SFsim_refl. Qed.

Lemma fsim_sym (a b : float) : fsim a b -> fsim b a.
Proof. apply SFsim_sym. Qed.

Lemma fsim_add (a a' b b' : float) :
  fsim a a' -> fsim b b' -> fsim (a + b) (a' + b').
Proof. unfold fsim. rewrite !add_spec. apply SFadd_sim. Qed.

Lemma fsim_sub (a a' b b' : float) :
  fsim a a' -> fsim b b' -> fsim (a - b) (a' - b').
Proof. unfold fsim. rewrite !sub_spec. apply SFsub_sim. Qed.

Lemma fsim_mul (a a' b b' : float) :
  fsim a a' -> fsim b b' -> fsim (a * b) (a' * b').
Proof. unfold fsim. rewrite !mul_spec. apply SFmul_sim. Qed.

Lemma fsim_div (a a' b : float) : fsim a a' -> fsim (a / b) (a' / b).
Proof. unfold fsim. rewrite !div_spec. apply SFdiv_sim. Qed.

Lemma fopp_add (a a' b b' : float) :
  fopp a a' -> fopp b b' -> fopp (a + b) (a' + b').
Proof.
  unfold fopp, fsim. rewrite !opp_spec, !add_spec. intros Ha Hb.
  eapply SFsim_trans; [apply SFadd_sim; eassumption | apply SFadd_opp].
Qed.

Lemma fopp_sub (a a' b b' : float) :
  fopp a a' -> fopp b b' -> fopp (a - b) (a' - b').
Proof.
  unfold fopp, fsim. rewrite !opp_spec, !sub_spec. intros Ha Hb.
  eapply SFsim_trans; [apply SFsub_sim; eassumption | apply SFsub_opp].
Qed.

Lemma fopp_mul_r (a a' b b' : float) :
  fsim a a' -> fopp b b' -> fopp (a * b) (a' * b').
Proof.
  unfold fopp, fsim. rewrite !opp_spec, !mul_spec. intros Ha Hb.
  unfold SF64mul. rewrite <- SFmul_opp_r.
  apply SFmul_sim; [apply SFsim_sym, Ha | exact Hb].
Qed.

Lemma fopp_mul_l (a a' b b' : float) :
  fopp a a' -> fsim b b' -> fopp (a * b) (a' * b').
Proof.
  unfold fopp, fsim. rewrite !opp_spec, !mul_spec. intros Ha Hb.
  unfold SF64mul. rewrite <- SFmul_opp_l.
  apply SFmul_sim; [exact Ha | apply SFsim_sym, Hb].
Qed.

Lemma fsim_mul_opp (a a' b b' : float) :
  fopp a a' -> fopp b b' -> fsim (a * b) (a' * b').
Proof.
  unfold fopp, fsim. rewrite !opp_spec, !mul_spec. intros Ha Hb.
  apply SFsim_sym. unfold SF64mul.
  rewrite <- (SFopp_involutive (SFmul prec emax (Prim2SF a) (Prim2SF b))).
  rewrite <- SFmul_opp_l, <- SFmul_opp_r.
  apply SFmul_sim; assumption.
Qed.

Lemma fopp_div (a a' b : float) : fopp a a' -> fopp (a / b) (a' / b).
Proof.
  unfold fopp, fsim. rewrite !opp_spec, !div_spec. intros Ha.
  unfold SF64div. rewrite <- SFdiv_opp_l. apply SFdiv_sim, Ha.
Qed.

Lemma SFeqb_refl_finite (s : bool) (m : positive) (e : Z) :
  SFeqb (S754_finite s m e) (S754_finite s m e) = true.
Proof.
  unfold SFeqb, SFcompare. rewrite Z.compare_refl, Pos.compare_cont_refl.
  destruct s; reflexivity.
Qed.

Lemma fsim_same_number (a b : float) : fsim a b -> same_number a b = true.
Proof.
  unfold fsim, same_number, is_nan. rewrite !FloatAxioms.eqb_spec.
  destruct (Prim2SF a) as [s | s | | s m e], (Prim2SF b) as [s' | s' | | s' m' e'];
    cbn [SFsim]; intros Hab; try discriminate Hab;
    try (injection Hab; intros; subst); try reflexivity.
  - destruct s'; reflexivity.
  - rewrite SFeqb_refl_finite. apply orb_true_r.
Qed.

Ltac kept_binary64 :=
  first [ exact fsim_refl | exact fsim_add | exact fopp_add | exact fsim_sub
        | exact fopp_sub | exact fsim_mul | exact fopp_mul_r | exact fopp_mul_l
        | exact fsim_mul_opp | exact fsim_div | exact fopp_div ].

(** The relations [fsim] and [fopp] are kept by a run in binary64. *)
Lemma orbit_mirror_binary64 (n : nat) (h : float) (p : Params) (st : State) (i : nat) :
  (i < n)%nat ->
  exists a b,
    nth_error (orbit n h p st) i = Some a /\
    nth_error (orbit n h p (mirror_binary64 st)) i = Some b /\
    mirrored fsim fopp a b.
Proof.
  intros Hi.
  apply (@orbit_kept float float_Num fsim fopp); try kept_binary64.
  - destruct st as [[x y] z]. cbn [mirror_binary64 mirrored fst snd].
    repeat split; apply fsim_refl.
  - exact Hi.
Qed.

Lemma mirrored_alike (u v : float * float * float) :
  mirrored fsim fopp u v -> mirror_alike u v = true.
Proof.
  intros (Hx & Hy & Hz). unfold mirror_alike, px, py, pz.
  rewrite (fsim_same_number _ _ Hx), (fsim_same_number _ _ Hy).
  rewrite (fsim_same_number _ _ (fsim_sym _ _ Hz)). reflexivity.
Qed.

Lemma mirrored_start (x y z : float) :
  mirrored fsim fopp (x, y, z) (- x, - y, z)%float.
Proof. repeat split; apply fsim_refl. Qed.

(** C10, as the code behaves.  In real arithmetic the field and the stepper
    commute with the mirror [(x, y, z) -> (-x, -y, z)], and the run started
    from [(-x0, -y0, z0)] holds at every index [0 <= i <= ntot-1] exactly
    the mirror [(-X_i, -Y_i, Z_i)] of the entry of the run started from
    [(x0, y0, z0)].  In binary64 the same holds, for every configuration,
    with the components compared as numbers: the two are both
    not-a-number, or equal for [==], which does not tell 0.0 from -0.0. *)
Theorem mirror_symmetry_as_numbers :
  ((forall (x y z : R) (p : Params),
      systemLorenz1963 (- x)%R (- y)%R z p = mirror (systemLorenz1963 x y z p)) /\
   (forall (x y z h : R) (p : Params),
      rk4_xyz (- x)%R (- y)%R z h systemLorenz1963 p
      = mirror (rk4_xyz x y z h systemLorenz1963 p)) /\
   (forall (np_arange : R -> R -> R -> exc (list R)) (c : Config R) (s1 s2 : Store R),
      arange_returns np_arange c -> (1 <= cfg_ntot c)%Z ->
      exists s' m',
        simulate np_arange c s1 = Ok s' /\
        simulate np_arange (mirror_config c) s2 = Ok m' /\
        forall i : nat, (Z.of_nat i <= cfg_ntot c - 1)%Z ->
          exists x y z,
            entry s' i = Some (x, y, z) /\ entry m' i = Some (- x, - y, z)%R)) /\
  ((forall (x y z : float) (p : Params),
      mirror_alike (systemLorenz1963 x y z p)
                   (systemLorenz1963 (- x)%float (- y)%float z p) = true) /\
   (forall (x y z h : float) (p : Params),
      mirror_alike (rk4_xyz x y z h systemLorenz1963 p)
                   (rk4_xyz (- x)%float (- y)%float z h systemLorenz1963 p) = true) /\
   (forall (np_arange : float -> float -> float -> exc (list float))
           (c : Config float) (s1 s2 : Store float),
      arange_returns np_arange c -> (1 <= cfg_ntot c)%Z ->
      exists s' m',
        simulate np_arange c s1 = Ok s' /\
        simulate np_arange (mirror_config_binary64 c) s2 = Ok m' /\
        forall i : nat, (Z.of_nat i <= cfg_ntot c - 1)%Z ->
          exists u v,
            entry s' i = Some u /\ entry m' i = Some v /\ mirror_alike u v = true)).
Proof.
  split; [exact mirror_symmetry|].
  split; [|split].
  - intros x y z p. apply mirrored_alike.
    apply (@systemLorenz1963_kept float float_Num fsim fopp); try kept_binary64.
    apply mirrored_start.
  - intros x y z h p. apply mirrored_alike.
    apply (@rk4_xyz_kept float float_Num fsim fopp); try kept_binary64.
    + intros a b c a' b' c'.
      apply (@systemLorenz1963_kept float float_Num fsim fopp); kept_binary64.
    + apply mirrored_start.
  - intros np_arange c s1 s2 Ha HN.
    destruct (simulate_orbit np_arange c s1 Ha HN) as (s' & Hrun & _ & Hx & Hy & Hz).
    destruct (simulate_orbit np_arange (mirror_config_binary64 c) s2 Ha HN)
      as (m' & Hrun' & _ & Hx' & Hy' & Hz').
    exists s', m'. split; [exact Hrun|]. split; [exact Hrun'|].
    intros i Hi.
    destruct (orbit_mirror_binary64 (Z.to_nat (cfg_ntot c)) (cfg_deltat c) (cfg_params c)
                (init_state c) i) as (u & v & Hu & Hv & Huv); [lia|].
    exists u, v.
    rewrite (entry_orbit s' _ i Hx Hy Hz), (entry_orbit m' _ i Hx' Hy' Hz').
    split; [exact Hu|]. split; [exact Hv|]. apply mirrored_alike, Huv.
Qed.

Lemma orbit_entry_run (c : Config float) (s : Store float) :
  (1 <= cfg_ntot c)%Z ->
  exists s',
    simulate arange_returning c s = Ok s' /\
    forall i, entry s' i
              = nth_error (orbit (Z.to_nat (cfg_ntot c)) (cfg_deltat c) (cfg_params c)
                                 (init_state c)) i.
Proof.
  intros HN.
  destruct (simulate_orbit arange_returning c s (arange_returning_returns c) HN)
    as (s' & Hrun & _ & Hx & Hy & Hz).
  exists s'. split; [exact Hrun|]. intros i. apply (entry_orbit s' _ i Hx Hy Hz).
Qed.

(** C10 fails as stated in binary64, whichever way "equals" is read.  From
    the origin, entry 1 of the mirrored run is (0.0, 0.0, 0.0), which is not
    the mirror (-0.0, -0.0, 0.0) of entry 1 of the run.  With step 0.5 the
    run from (0, 0.1, 0) overflows, entry 5 of both runs is not-a-number in
    each component, and not-a-number is not [==] to itself. *)
Lemma mirror_not_exact_binary64 :
  (exists s' m',
     simulate arange_returning
       (set_ntot (set_init notebook_config (0, 0, 0)%float) 2) blank_store = Ok s' /\
     simulate arange_returning
       (mirror_config_binary64 (set_ntot (set_init notebook_config (0, 0, 0)%float) 2))
       blank_store = Ok m' /\
     entry s' 1 = Some (0, 0, 0)%float /\
     entry m' 1 = Some (0, 0, 0)%float /\
     mirror_binary64 (0, 0, 0)%float <> (0, 0, 0)%float) /\
  (exists s' m',
     simulate arange_returning (with_deltat_ntot notebook_config 0.5%float 6) blank_store
     = Ok s' /\
     simulate arange_returning
       (mirror_config_binary64 (with_deltat_ntot notebook_config 0.5%float 6))
       blank_store = Ok m' /\
     entry s' 5 = Some (nan, nan, nan) /\
     entry m' 5 = Some (nan, nan, nan) /\
     same_state (nan, nan, nan) (mirror_binary64 (nan, nan, nan)) = false).
Proof.
  split.
  - destruct (orbit_entry_run (set_ntot (set_init notebook_config (0, 0, 0)%float) 2)
                blank_store) as (s' & Hs & Es); [cbn; lia|].
    destruct (orbit_entry_run
                (mirror_config_binary64
                   (set_ntot (set_init notebook_config (0, 0, 0)%float) 2))
                blank_store) as (m' & Hm & Em); [cbn; lia|].
    exists s', m'. split; [exact Hs|]. split; [exact Hm|].
    rewrite Es, Em. split; [vm_compute; reflexivity|]. split; [vm_compute; reflexivity|].
    intros Heq. apply (f_equal (fun st => Prim2SF (px st))) in Heq.
    vm_compute in Heq. discriminate Heq.
  - destruct (orbit_entry_run (with_deltat_ntot notebook_config 0.5%float 6)
                blank_store) as (s' & Hs & Es); [cbn; lia|].
    destruct (orbit_entry_run
                (mirror_config_binary64 (with_deltat_ntot notebook_config 0.5%float 6))
                blank_store) as (m' & Hm & Em); [cbn; lia|].
    exists s', m'. split; [exact Hs|]. split; [exact Hm|].
    rewrite Es, Em. repeat split; vm_compute; reflexivity.
Qed.

Lemma mirror_symmetry_as_numbers_witness :
  exists s' m' u v,
    simulate arange_returning (with_inity_ntot notebook_config 0.1%float 3) blank_store
    = Ok s' /\
    simulate arange_returning
      (mirror_config_binary64 (with_inity_ntot notebook_config 0.1%float 3)) blank_store
    = Ok m' /\
    entry s' 2 = Some u /\ entry m' 2 = Some v /\ mirror_alike u v = true.
Proof.
  destruct mirror_symmetry_as_numbers as (_ & _ & _ & Hrun).
  destruct (Hrun arange_returning (with_inity_ntot notebook_config 0.1%float 3)
              blank_store blank_store) as (s' & m' & H1 & H2 & Hi).
  - exists []. reflexivity.
  - cbn. lia.
  - destruct (Hi 2%nat) as (u & v & Hu & Hv & Huv); [cbn; lia|].
    exists s', m', u, v. split; [exact H1|]. split; [exact H2|].
    split; [exact Hu|]. split; [exact Hv | exact Huv].
Defined.

(** ** The stepper against the classic scheme *)




(** ** Configurations the notebook cannot run *)

(** C5, as the notebook behaves.  No cell checks the configuration; the
    errors are those of the library calls of the configuration cells, and
    they come before the loop runs.  A zero step ends the first cell with
    the exception of [np.arange].  A configuration with [ntot < 1] ends in
    the exception [np.arange] raised, or else in the [ValueError] of
    [np.zeros] for [ntot < 0] and the [IndexError] of the write to entry 0
    for [ntot = 0].  A negative step is not rejected: whenever [np.arange]
    returns and [ntot >= 1] the run completes with arrays of length
    [ntot]. *)
Theorem configuration_outcomes {T : Type} `{Num T}
    (np_arange : T -> T -> T -> exc (list T)) (c : Config T) (s : Store T) :
  (arange_rejects_signless np_arange -> signless (cfg_deltat c) = true ->
     exists e, configure np_arange c s = Raise e /\ run_all np_arange c s = Raise e) /\
  (forall e,
     np_arange (of_int 0) (mul (of_int (cfg_ntot c)) (cfg_deltat c)) (cfg_deltat c)
     = Raise e ->
     configure np_arange c s = Raise e /\ run_all np_arange c s = Raise e) /\
  (arange_returns np_arange c -> (cfg_ntot c < 0)%Z ->
     configure np_arange c s = Raise ValueError /\
     run_all np_arange c s = Raise ValueError) /\
  (arange_returns np_arange c -> cfg_ntot c = 0%Z ->
     configure np_arange c s = Raise IndexError /\
     run_all np_arange c s = Raise IndexError) /\
  (arange_returns np_arange c -> (1 <= cfg_ntot c)%Z ->
     exists s',
       run_all np_arange c s = Ok s' /\
       Z.of_nat (length (xvalues s')) = cfg_ntot c /\
       Z.of_nat (length (yvalues s')) = cfg_ntot c /\
       Z.of_nat (length (zvalues s')) = cfg_ntot c).
Proof.
  assert (Hraise : forall e, configure np_arange c s = Raise e ->
            configure np_arange c s = Raise e /\ run_all np_arange c s = Raise e).
  { intros e He. split; [exact He|]. unfold run_all, simulate. rewrite He. reflexivity. }
  assert (Hfirst : forall e,
            np_arange (of_int 0) (mul (of_int (cfg_ntot c)) (cfg_deltat c)) (cfg_deltat c)
            = Raise e -> configure np_arange c s = Raise e).
  { intros e He. unfold configure, cell_time_stepping. rewrite He. reflexivity. }
  split; [|split; [|split; [|split]]].
  - intros Hlib Hzero.
    destruct (Hlib (of_int 0) (mul (of_int (cfg_ntot c)) (cfg_deltat c)) (cfg_deltat c) Hzero)
      as [e He].
    exists e. apply Hraise, Hfirst, He.
  - intros e He. apply Hraise, Hfirst, He.
  - intros [t Ht] HN. apply Hraise.
    unfold configure, cell_time_stepping, cell_parameters, cell_initial_conditions.
    rewrite Ht. cbn [bind assign_time_stepping assign_parameters assign_init ntot].
    rewrite np_zeros_negative by exact HN. reflexivity.
  - intros [t Ht] HN. apply Hraise.
    unfold configure, cell_time_stepping, cell_parameters, cell_initial_conditions.
    rewrite Ht. cbn [bind assign_time_stepping assign_parameters assign_init ntot].
    rewrite HN. reflexivity.
  - intros Ha HN.
    destruct (run_all_orbit np_arange c s Ha HN) as (s' & Hrun & Hx & Hy & Hz & _).
    exists s'. split; [exact Hrun|].
    rewrite Hx, Hy, Hz, !length_map, orbit_length. repeat split; lia.
Qed.

Lemma configuration_outcomes_witness :
  (exists e,
     run_all arange_checked (with_deltat_ntot notebook_config 0%float 3) blank_store
     = Raise e) /\
  run_all arange_checked (with_inity_ntot notebook_config 0.1%float 0) blank_store
  = Raise IndexError /\
  run_all arange_checked (with_inity_ntot notebook_config 0.1%float (-4)) blank_store
  = Raise ValueError /\
  exists s',
    run_all arange_checked (with_deltat_ntot notebook_config (-0.01)%float 3) blank_store
    = Ok s' /\
    Z.of_nat (length (xvalues s')) = 3%Z.
Proof.
  split; [|split; [|split]].
  - destruct (configuration_outcomes arange_checked
                (with_deltat_ntot notebook_config 0%float 3) blank_store)
      as (Hzero & _).
    destruct Hzero as (e & _ & He).
    + intros start stop step Hstep. exists ArangeError.
      unfold arange_checked. rewrite Hstep. reflexivity.
    + reflexivity.
    + exists e. exact He.
  - apply (configuration_outcomes arange_checked
             (with_inity_ntot notebook_config 0.1%float 0) blank_store).
    + exists []. reflexivity.
    + reflexivity.
  - apply (configuration_outcomes arange_checked
             (with_inity_ntot notebook_config 0.1%float (-4)) blank_store).
    + exists []. reflexivity.
    + reflexivity.
  - destruct (configuration_outcomes arange_checked
                (with_deltat_ntot notebook_config (-0.01)%float 3) blank_store)
      as (_ & _ & _ & _ & Hrun).
    destruct Hrun as (s' & Hrun & Hx & _).
    + exists []. reflexivity.
    + cbn. lia.
    + exists s'. split; [exact Hrun | exact Hx].
Defined.
